(** * backend_chat: a Socket.IO chat relay (main.py)

    A shallow embedding of [main.py]: the room resolver [get_room], the
    presence dictionary [connected_users], the four Socket.IO handlers
    ([handle_connect], [handle_disconnect], [handle_join],
    [handle_send_message]) and the history route [get_messages], with the
    properties of the relay proved over them. *)

From Stdlib Require Import ZArith Lia Ascii.
From stdpp Require Import base decidable numbers list strings pretty
  sets gmap fin_maps sorting.

Open Scope Z_scope.

(** ** Python values

    The JSON values a client can put in an event: [None], booleans, integers
    and strings.  Characters are [ascii], that is code points below 256. *)

Inductive value : Type :=
  | VNone
  | VBool (b : bool)
  | VInt (z : Z)
  | VStr (s : string).

Global Instance value_eq_dec : EqDecision value.
Proof. solve_decision. Defined.

(** [str(z)] of a Python integer: decimal digits, [-] in front of a negative
    number. *)
Definition py_str_int (z : Z) : string := pretty z.

(** [str(v)], as an f-string renders [{v}]. *)
Definition py_str (v : value) : string :=
  match v with
  | VNone => "None"
  | VBool true => "True"
  | VBool false => "False"
  | VInt z => py_str_int z
  | VStr s => s
  end.

(** [str.isspace] on one character, for code points below 256:
    TAB, LF, VT, FF, CR, FS, GS, RS, US, space, NEL and NBSP. *)
Definition isspace (c : ascii) : bool :=
  let n := N_of_ascii c in
  ((9 <=? n) && (n <=? 13) || (28 <=? n) && (n <=? 32)
   || (n =? 133) || (n =? 160))%N.

Fixpoint lstrip (s : string) : string :=
  match s with
  | EmptyString => EmptyString
  | String c s' => if isspace c then lstrip s' else s
  end.

Fixpoint rstrip (s : string) : string :=
  match s with
  | EmptyString => EmptyString
  | String c s' =>
      match rstrip s' with
      | EmptyString => if isspace c then EmptyString else String c EmptyString
      | r => String c r
      end
  end.

(** [s.strip()] *)
Definition strip (s : string) : string := rstrip (lstrip s).

(** Truth value of a string: [if s:] holds for non-empty strings. *)
Definition truthy (s : string) : bool :=
  match s with EmptyString => false | _ => true end.

(** ** Models *)

(** A row of the [Message] table.  [timestamp] is an instant of the server
    clock (UTC). *)
Record Message : Type := mkMessage {
  id : Z;
  sender_id : Z;
  receiver_id : Z;
  message : string;
  timestamp : Z
}.

Global Instance Message_eq_dec : EqDecision Message.
Proof. solve_decision. Defined.

(** ** HELPER: consistent room for 2 users *)

(** [f"room_{min(user1, user2)}_{max(user1, user2)}"] *)
Definition get_room (user1 user2 : Z) : string :=
  "room_" +:+ py_str_int (Z.min user1 user2) +:+ "_"
          +:+ py_str_int (Z.max user1 user2).

(** ** Runtime state *)

(** Where an event is emitted to: a chat room ([to=room]) or the private room
    of one connection ([room=request.sid]), whose only member is that
    connection. *)
Inductive target : Type :=
  | ToRoom (room : string)
  | ToSid (sid : string).

Global Instance target_eq_dec : EqDecision target.
Proof. solve_decision. Defined.

(** One call of [emit]: event name, payload, target, and the connections the
    target stood for when it was called. *)
Record Emission : Type := mkEmission {
  ev_name : string;
  ev_data : list (string * value);
  ev_to : target;
  ev_rcpts : gset string
}.

(** The state the handlers share: the global dictionary [connected_users]
    (in insertion order, as a Python dict iterates), the Socket.IO server's
    room memberships and open connections, the rows of the [Message] table in
    insertion order, the trace of [emit] calls, and the number of clock
    readings made so far. *)
Record World : Type := mkWorld {
  connected_users : list (string * string);
  rooms : gmap string (gset string);
  live : gset string;
  db_messages : list Message;
  outbox : list Emission;
  ticks : nat
}.

Definition init_world : World := mkWorld [] ∅ ∅ [] [] 0.

(** What the handlers do not decide themselves: the server clock, the
    rendering of an instant, [int] on a string, and whether a call into
    Socket.IO or the database raises. *)
Class Env : Type := {
  (** the n-th reading of [datetime.now(timezone.utc)] *)
  now : nat → Z;
  (** [datetime.isoformat] *)
  isoformat : Z → string;
  (** [int(s)] on a string; [None] is a [ValueError] *)
  int_of_str : string → option Z;
  (** whether [emit] raises, given the earlier calls and this one *)
  emit_raises : list Emission → Emission → bool;
  (** whether [db.session.commit] raises for this row *)
  commit_raises : list Message → Message → bool;
  (** whether the history query raises *)
  query_raises : list Message → bool
}.

(** [ORDER BY timestamp ASC] as SQL defines it: the rows come back rearranged
    so that timestamps ascend; nothing is said about rows whose timestamps
    are equal. *)
Definition ts_le (m1 m2 : Message) : Prop := timestamp m1 ≤ timestamp m2.

Class QueryEngine : Type := {
  order_by_timestamp : list Message → list Message;
  order_by_timestamp_perm : ∀ l, order_by_timestamp l ≡ₚ l;
  order_by_timestamp_sorted : ∀ l, Sorted ts_le (order_by_timestamp l)
}.

(** ** Python dictionaries with string keys, in insertion order *)

Fixpoint dict_get (k : string) (d : list (string * string)) : option string :=
  match d with
  | [] => None
  | (k', v) :: d' => if decide (k' = k) then Some v else dict_get k d'
  end.

(** [d[k] = v]: an existing key keeps its place, a new one goes last. *)
Fixpoint dict_set (k v : string) (d : list (string * string))
  : list (string * string) :=
  match d with
  | [] => [(k, v)]
  | (k', v') :: d' =>
      if decide (k' = k) then (k, v) :: d' else (k', v') :: dict_set k v d'
  end.

(** [del d[k]] *)
Fixpoint dict_del (k : string) (d : list (string * string))
  : list (string * string) :=
  match d with
  | [] => []
  | (k', v') :: d' =>
      if decide (k' = k) then dict_del k d' else (k', v') :: dict_del k d'
  end.

(** ** Handlers as state-passing computations that may raise *)

Inductive outcome (A : Type) : Type :=
  | Returned (a : A)
  | Raised.
Arguments Returned {A} a.
Arguments Raised {A}.

Definition Handler (A : Type) : Type := World → outcome A * World.

Global Instance Handler_ret : MRet Handler := λ A a w, (Returned a, w).

Global Instance Handler_bind : MBind Handler := λ A B f m w,
  match m w with
  | (Returned a, w') => f a w'
  | (Raised, w') => (Raised, w')
  end.

Definition raise {A : Type} : Handler A := λ w, (Raised, w).

(** [try: body  except Exception: handler] *)
Definition try_except {A : Type} (body handler : Handler A) : Handler A :=
  λ w, match body w with
       | (Returned a, w') => (Returned a, w')
       | (Raised, w') => handler w'
       end.

Definition of_option {A : Type} (o : option A) : Handler A :=
  match o with Some a => mret a | None => raise end.

(** [data[k]]: a [KeyError] when the key is missing. *)
Definition getitem (data : gmap string value) (k : string) : Handler value :=
  of_option (data !! k).

(** [v.strip()]: only strings have the method. *)
Definition str_strip (v : value) : Handler string :=
  match v with VStr s => mret (strip s) | _ => raise end.

Definition members (w : World) (room : string) : gset string :=
  default ∅ (rooms w !! room).

Definition recipients (w : World) (t : target) : gset string :=
  match t with
  | ToRoom room => members w room
  | ToSid sid => {[ sid ]}
  end.

Section handlers.
Context {env : Env}.

(** [int(v)]: integers are kept, booleans count as 0 and 1, strings are
    parsed, [None] is a [TypeError]. *)
Definition py_int (v : value) : option Z :=
  match v with
  | VNone => None
  | VBool b => Some (if b then 1 else 0)
  | VInt z => Some z
  | VStr s => int_of_str s
  end.

(** [datetime.now(timezone.utc)]: one more reading of the clock. *)
Definition utcnow : Handler Z := λ w,
  (Returned (now (ticks w)),
   mkWorld (connected_users w) (rooms w) (live w) (db_messages w) (outbox w)
           (S (ticks w))).

(** Modelled from the spec: Flask-SocketIO's [join_room] is not in src/; it
    adds the connection to the room's membership set, and joining twice has
    no additional effect. *)
Definition join_room (room sid : string) : Handler unit := λ w,
  (Returned tt,
   mkWorld (connected_users w) (<[room := {[ sid ]} ∪ members w room]> (rooms w))
           (live w) (db_messages w) (outbox w) (ticks w)).

(** Modelled from the spec: Flask-SocketIO's [emit] is not in src/; it hands
    the event to every connection currently in the target.  The call is
    recorded in [outbox] whether or not it raises. *)
Definition emit (name : string) (data : list (string * value)) (to : target)
  : Handler unit := λ w,
  let e := mkEmission name data to (recipients w to) in
  let w' := mkWorld (connected_users w) (rooms w) (live w) (db_messages w)
                    (outbox w ++ [e]) (ticks w) in
  (if emit_raises (outbox w) e then Raised else Returned tt, w').

(** Modelled from the spec: the storage engine's assignment of the integer
    primary key is not in src/; the next id is one more than the largest id
    stored so far. *)
Definition next_id (rows : list Message) : Z :=
  1 + foldr Z.max 0 (id <$> rows).

(** [msg = Message(...); db.session.add(msg); db.session.commit();
    db.session.refresh(msg)]: the row gets its id from the table and its
    timestamp from the column default, a reading of the server clock. *)
Definition db_add_commit (sender receiver : Z) (text : string)
  : Handler Message :=
  t ← utcnow;
  (λ w, let msg := mkMessage (next_id (db_messages w)) sender receiver text t in
        if commit_raises (db_messages w) msg then (Raised, w)
        else (Returned msg,
              mkWorld (connected_users w) (rooms w) (live w)
                      (db_messages w ++ [msg]) (outbox w) (ticks w)))
  : Handler Message.

(** *** [@socketio.on("connect")] *)

Definition handle_connect (user_id : option string) (sid : string)
  : Handler unit :=
  match user_id with
  | Some uid =>
      if truthy uid then
        ((λ w, (Returned tt,
                mkWorld (dict_set uid sid (connected_users w)) (rooms w)
                        (live w) (db_messages w) (outbox w) (ticks w)))
         : Handler unit);;
        emit "connected" [("message", VStr "Connected to chat server")]
             (ToSid sid)
      else mret tt
  | None => mret tt
  end.

(** *** [@socketio.on("disconnect")] *)

(** The [for uid, sid in connected_users.items()] loop with its [break]:
    the first key whose value is the connection. *)
Fixpoint scan_sid (sid : string) (items : list (string * string))
  : option string :=
  match items with
  | [] => None
  | (uid, s) :: rest => if decide (s = sid) then Some uid else scan_sid sid rest
  end.

Definition handle_disconnect (sid : string) : Handler unit := λ w,
  match scan_sid sid (connected_users w) with
  | Some uid =>
      if truthy uid then
        (Returned tt,
         mkWorld (dict_del uid (connected_users w)) (rooms w) (live w)
                 (db_messages w) (outbox w) (ticks w))
      else (Returned tt, w)
  | None => (Returned tt, w)
  end.

(** *** [@socketio.on("join")] *)

Definition join_body (data : gmap string value) (sid : string)
  : Handler unit :=
  v1 ← getitem data "sender_id";
  sender ← of_option (py_int v1);
  v2 ← getitem data "receiver_id";
  receiver ← of_option (py_int v2);
  sender_username ← getitem data "sender_username";
  let room := get_room sender receiver in
  join_room room sid;;
  t1 ← utcnow;
  emit "system"
       [("message", VStr (py_str sender_username +:+ " joined the chat"));
        ("timestamp", VStr (isoformat t1))]
       (ToRoom room);;
  t2 ← utcnow;
  emit "joined_room"
       [("room", VStr room);
        ("message", VStr ("You joined chat with user " +:+ py_str_int receiver));
        ("timestamp", VStr (isoformat t2))]
       (ToSid sid).

Definition handle_join (data : gmap string value) (sid : string)
  : Handler unit :=
  try_except (join_body data sid)
    (emit "error" [("message", VStr "Failed to join room")] (ToSid sid)).

(** *** [@socketio.on("send_message")] *)

Definition receive_message_payload (msg : Message)
  : list (string * value) :=
  [("sender_id", VInt (sender_id msg));
   ("receiver_id", VInt (receiver_id msg));
   ("message", VStr (message msg));
   ("timestamp", VStr (isoformat (timestamp msg)));
   ("message_id", VInt (id msg))].

Definition message_sent_payload (msg : Message) : list (string * value) :=
  [("message", VStr "Message delivered");
   ("timestamp", VStr (isoformat (timestamp msg)));
   ("message_id", VInt (id msg))].

Definition send_body (data : gmap string value) (sid : string)
  : Handler unit :=
  v1 ← getitem data "sender_id";
  sender ← of_option (py_int v1);
  v2 ← getitem data "receiver_id";
  receiver ← of_option (py_int v2);
  v3 ← getitem data "message";
  message_text ← str_strip v3;
  if truthy message_text then
    msg ← db_add_commit sender receiver message_text;
    let room := get_room sender receiver in
    emit "receive_message" (receive_message_payload msg) (ToRoom room);;
    emit "message_sent" (message_sent_payload msg) (ToSid sid)
  else
    emit "error" [("message", VStr "Message cannot be empty")] (ToSid sid).

Definition handle_send_message (data : gmap string value) (sid : string)
  : Handler unit :=
  try_except (send_body data sid)
    (emit "error" [("message", VStr "Failed to send message")] (ToSid sid)).

(** *** The history route [/messages/<int:user1>/<int:user2>] *)

Definition between (user1 user2 : Z) (m : Message) : bool :=
  (Z.eqb (sender_id m) user1 && Z.eqb (receiver_id m) user2)
  || (Z.eqb (sender_id m) user2 && Z.eqb (receiver_id m) user1).

Definition message_json (m : Message) : list (string * value) :=
  [("id", VInt (id m));
   ("sender_id", VInt (sender_id m));
   ("receiver_id", VInt (receiver_id m));
   ("message", VStr (message m));
   ("timestamp", VStr (isoformat (timestamp m)))].

Inductive response : Type :=
  | Json200 (body : list (list (string * value)))
  | Error500 (error : string).

(** [Message.query.filter(...).order_by(Message.timestamp.asc()).all()] *)
Definition history_rows {engine : QueryEngine} (user1 user2 : Z)
  (rows : list Message) : list Message :=
  order_by_timestamp (List.filter (between user1 user2) rows).

Definition get_messages {engine : QueryEngine} (user1 user2 : Z) (w : World)
  : response :=
  if query_raises (db_messages w) then Error500 "Failed to fetch messages"
  else Json200 (message_json <$> history_rows user1 user2 (db_messages w)).

(** ** The server around the handlers *)

(** Modelled from the spec: the Socket.IO server's clean-up on disconnect is
    not in src/; it removes the connection from every room it was a member
    of. *)
Definition leave_all (sid : string) (w : World) : World :=
  mkWorld (connected_users w) ((λ s, s ∖ {[ sid ]}) <$> rooms w)
          (live w ∖ {[ sid ]}) (db_messages w) (outbox w) (ticks w).

(** A connection is opened, then its connect handler runs. *)
Definition open_connection (sid : string) (w : World) : World :=
  mkWorld (connected_users w) (rooms w) ({[ sid ]} ∪ live w) (db_messages w)
          (outbox w) (ticks w).

Inductive event : Type :=
  | Connect (sid : string) (user_id : option string)
  | Disconnect (sid : string)
  | Join (sid : string) (data : gmap string value)
  | SendMessage (sid : string) (data : gmap string value).

(** The handler of a disconnect runs before the server's clean-up. *)
Definition step (e : event) (w : World) : World :=
  match e with
  | Connect sid user_id => (handle_connect user_id sid (open_connection sid w)).2
  | Disconnect sid => leave_all sid (handle_disconnect sid w).2
  | Join sid data => (handle_join data sid w).2
  | SendMessage sid data => (handle_send_message data sid w).2
  end.

(** A connection connects once, under a connection id no open connection
    has; every other event comes from an open connection. *)
Definition enabled (e : event) (w : World) : Prop :=
  match e with
  | Connect sid _ => sid ∉ live w
  | Disconnect sid | Join sid _ | SendMessage sid _ => sid ∈ live w
  end.

Definition run (es : list event) (w : World) : World :=
  foldl (λ w e, step e w) w es.

Inductive reachable : World → Prop :=
  | reachable_init : reachable init_world
  | reachable_step w e : reachable w → enabled e w → reachable (step e w).

End handlers.

(** ** Environments and query engines to run the handlers in *)

Definition digit_of (c : ascii) : option Z :=
  let n := N_of_ascii c in
  if ((48 <=? n) && (n <=? 57))%N then Some (Z.of_N n - 48) else None.

(** Digits with single underscores between them, as an integer literal
    allows; [seen] says whether the previous character was a digit. *)
Fixpoint parse_digits (acc : Z) (seen : bool) (s : string) : option Z :=
  match s with
  | EmptyString => if seen then Some acc else None
  | String c s' =>
      if Ascii.eqb c "_" then
        if seen then parse_digits acc false s' else None
      else
        match digit_of c with
        | Some d => parse_digits (10 * acc + d) true s'
        | None => None
        end
  end.

(** [int(s)] on a string of code points below 256: white space around the
    numeral is dropped, a sign may precede the digits, and the digits may be
    grouped by single underscores. *)
Definition parse_decimal (s : string) : option Z :=
  match strip s with
  | String "-" s' => Z.opp <$> parse_digits 0 false s'
  | String "+" s' => parse_digits 0 false s'
  | s' => parse_digits 0 false s'
  end.

(** A server on which nothing raises and whose clock advances by one at
    every reading. *)
Definition quiet_env : Env := {|
  now := λ n, 1700000000 + Z.of_nat n;
  isoformat := pretty;
  int_of_str := parse_decimal;
  emit_raises := λ _ _, false;
  commit_raises := λ _ _, false;
  query_raises := λ _, false
|}.

(** A server whose clock stands still between readings. *)
Definition frozen_clock_env : Env := {|
  now := λ _, 1700000000;
  isoformat := pretty;
  int_of_str := parse_decimal;
  emit_raises := λ _ _, false;
  commit_raises := λ _ _, false;
  query_raises := λ _, false
|}.

(** A server on which emitting [receive_message] raises. *)
Definition broken_broadcast_env : Env := {|
  now := λ n, 1700000000 + Z.of_nat n;
  isoformat := pretty;
  int_of_str := parse_decimal;
  emit_raises := λ _ e, bool_decide (ev_name e = "receive_message");
  commit_raises := λ _ _, false;
  query_raises := λ _, false
|}.

(** The ordering that agrees with [ts_le] and orders rows of equal
    timestamps by ascending id. *)
Definition ts_then_id_le (m1 m2 : Message) : Prop :=
  timestamp m1 < timestamp m2 ∨ (timestamp m1 = timestamp m2 ∧ id m1 ≤ id m2).

Global Instance ts_le_dec : RelDecision ts_le.
Proof. intros m1 m2. unfold ts_le. apply _. Defined.

Global Instance ts_then_id_le_dec : RelDecision ts_then_id_le.
Proof. intros m1 m2. unfold ts_then_id_le. apply _. Defined.

Global Instance ts_le_total : Total ts_le.
Proof. intros m1 m2. unfold ts_le. lia. Qed.

Global Instance ts_then_id_le_total : Total ts_then_id_le.
Proof. intros m1 m2. unfold ts_then_id_le. lia. Qed.

(** An engine that sorts on the timestamp alone. *)
Definition timestamp_engine : QueryEngine := {|
  order_by_timestamp := merge_sort ts_le;
  order_by_timestamp_perm := merge_sort_Permutation ts_le;
  order_by_timestamp_sorted := Sorted_merge_sort ts_le
|}.

(** Modelled from the spec: the storage engine's [ORDER BY] is not in src/;
    it orders the rows it is given by ascending timestamp and returns rows of
    equal timestamps in the order the table holds them.  The sort key is the
    one the route names, the timestamp alone. *)
Fixpoint insert_by_timestamp (m : Message) (l : list Message)
  : list Message :=
  match l with
  | [] => [m]
  | x :: xs =>
      if decide (timestamp m ≤ timestamp x) then m :: l
      else x :: insert_by_timestamp m xs
  end.

Fixpoint sort_by_timestamp (l : list Message) : list Message :=
  match l with
  | [] => []
  | m :: l' => insert_by_timestamp m (sort_by_timestamp l')
  end.

Lemma insert_by_timestamp_perm (m : Message) (l : list Message) :
  insert_by_timestamp m l ≡ₚ m :: l.
Proof.
  induction l as [|x xs IH]; [done|]. simpl.
  destruct (decide (timestamp m ≤ timestamp x)); [done|].
  rewrite IH. apply Permutation_swap.
Qed.

Lemma sort_by_timestamp_perm (l : list Message) : sort_by_timestamp l ≡ₚ l.
Proof.
  induction l as [|m l IH]; [done|]. simpl.
  by rewrite insert_by_timestamp_perm, IH.
Qed.

Lemma insert_by_timestamp_sorted (m : Message) (l : list Message) :
  Sorted ts_le l → Sorted ts_le (insert_by_timestamp m l).
Proof.
  induction 1 as [|x xs Hxs IH Hhd]; simpl.
  - by repeat constructor.
  - destruct (decide (timestamp m ≤ timestamp x)) as [Hle|Hgt].
    + constructor; [by constructor|]. by constructor.
    + constructor; [exact IH|].
      destruct Hhd as [|y ys Hxy]; simpl.
      * constructor. unfold ts_le. lia.
      * destruct (decide (timestamp m ≤ timestamp y));
          constructor; [unfold ts_le; lia|done].
Qed.

Lemma sort_by_timestamp_sorted (l : list Message) :
  Sorted ts_le (sort_by_timestamp l).
Proof.
  induction l as [|m l IH]; [constructor|]. simpl.
  by apply insert_by_timestamp_sorted.
Qed.

Definition table_order_engine : QueryEngine := {|
  order_by_timestamp := sort_by_timestamp;
  order_by_timestamp_perm := sort_by_timestamp_perm;
  order_by_timestamp_sorted := sort_by_timestamp_sorted
|}.

(** Whether a list of events can happen, one after the other. *)
Global Instance enabled_dec {env : Env} (e : event) (w : World) :
  Decision (enabled e w).
Proof. destruct e; simpl; apply _. Defined.

Fixpoint trace_ok {env : Env} (es : list event) (w : World) : bool :=
  match es with
  | [] => true
  | e :: es' => bool_decide (enabled e w) && trace_ok es' (step e w)
  end.

(** [payload[k]] on an emitted payload, and whether an emission carries a
    given event name. *)
Definition payload_get (k : string) (data : list (string * value))
  : option value :=
  snd <$> List.find (λ p, bool_decide (p.1 = k)) data.

Definition named (name : string) (e : Emission) : bool :=
  bool_decide (ev_name e = name).

(** The unordered pair of two participant ids. *)
Definition unordered (a b : Z) : gset Z := {[ a; b ]}.

(** ** Scenarios: a two-participant chat *)

(** The payload of a [send_message] event. *)
Definition send_data (sender receiver : Z) (text : string)
  : gmap string value :=
  <["sender_id" := VInt sender]>
    (<["receiver_id" := VInt receiver]> (<["message" := VStr text]> ∅)).

(** One connection sends two messages; on a clock that stands still both
    rows get the same timestamp. *)
Definition two_sends : list event :=
  [Connect "s1" (Some "1");
   SendMessage "s1" (send_data 1 2 "hi");
   SendMessage "s1" (send_data 1 2 "yo")].

Definition tied_world : World :=
  run (env := frozen_clock_env) two_sends init_world.

(** The payload of a [join] event. *)
Definition join_data (sender receiver : Z) (name : string)
  : gmap string value :=
  <["sender_id" := VInt sender]>
    (<["receiver_id" := VInt receiver]>
       (<["sender_username" := VStr name]> ∅)).

(** Two participants, both connected and joined to their room. *)
Definition two_joined : list event :=
  [Connect "s1" (Some "1");
   Connect "s2" (Some "2");
   Join "s1" (join_data 1 2 "Alice");
   Join "s2" (join_data 2 1 "Bob")].

Definition joined_world : World := run (env := quiet_env) two_joined init_world.

Definition joined_world_broken : World :=
  run (env := broken_broadcast_env) two_joined init_world.

(** ** What the handlers read and emit, named for the statements *)

(** Whether a string is free of the separator [get_room] puts between the
    two ids. *)
Fixpoint no_underscore (s : string) : bool :=
  match s with
  | EmptyString => true
  | String c s' => negb (Ascii.eqb c "_") && no_underscore s'
  end.

(** An [error] event sent to one connection. *)
Definition error_emission (text sid : string) : Emission :=
  mkEmission "error" [("message", VStr text)] (ToSid sid) {[ sid ]}.

Section readings.
Context {env : Env}.

(** What a send request asks for, once its three fields are read: the two
    ids and the trimmed text. *)
Definition parse_send (data : gmap string value) : option (Z * Z * string) :=
  v1 ← data !! "sender_id";
  sender ← py_int v1;
  v2 ← data !! "receiver_id";
  receiver ← py_int v2;
  v3 ← data !! "message";
  match v3 with VStr s => Some (sender, receiver, strip s) | _ => None end.

(** The row a send stores, and the two emissions that follow it. *)
Definition new_message (w : World) (sender receiver : Z) (text : string)
  : Message :=
  mkMessage (next_id (db_messages w)) sender receiver text (now (ticks w)).

Definition broadcast_of (w : World) (msg : Message) : Emission :=
  mkEmission "receive_message" (receive_message_payload msg)
    (ToRoom (get_room (sender_id msg) (receiver_id msg)))
    (members w (get_room (sender_id msg) (receiver_id msg))).

Definition ack_of (sid : string) (msg : Message) : Emission :=
  mkEmission "message_sent" (message_sent_payload msg) (ToSid sid) {[ sid ]}.

Definition send_failed (sid : string) : Emission :=
  error_emission "Failed to send message" sid.

Definition empty_rejected (sid : string) : Emission :=
  error_emission "Message cannot be empty" sid.

(** What a join request asks for: the two ids and the display name. *)
Definition parse_join (data : gmap string value) : option (Z * Z * value) :=
  v1 ← data !! "sender_id";
  sender ← py_int v1;
  v2 ← data !! "receiver_id";
  receiver ← py_int v2;
  name ← data !! "sender_username";
  Some (sender, receiver, name).

(** The notice a join sends to the room, joiner included, and the
    confirmation it sends to the joiner. *)
Definition system_of (w : World) (sid : string) (sender receiver : Z)
    (name : value) : Emission :=
  mkEmission "system"
    [("message", VStr (py_str name +:+ " joined the chat"));
     ("timestamp", VStr (isoformat (now (ticks w))))]
    (ToRoom (get_room sender receiver))
    ({[ sid ]} ∪ members w (get_room sender receiver)).

Definition joined_of (w : World) (sid : string) (sender receiver : Z)
  : Emission :=
  mkEmission "joined_room"
    [("room", VStr (get_room sender receiver));
     ("message", VStr ("You joined chat with user " +:+ py_str_int receiver));
     ("timestamp", VStr (isoformat (now (S (ticks w)))))]
    (ToSid sid) {[ sid ]}.

Definition join_failed (sid : string) : Emission :=
  error_emission "Failed to join room" sid.

(** What the handlers keep true of the state: the dictionary has no key
    twice and no empty key, no connection is registered twice, registered
    connections are open, and ids ascend along the table. *)
Record world_ok (w : World) : Prop := {
  ok_keys : NoDup (connected_users w).*1;
  ok_truthy : Forall (λ k, truthy k = true) (connected_users w).*1;
  ok_values : NoDup (connected_users w).*2;
  ok_live : ∀ s, s ∈ (connected_users w).*2 → s ∈ live w;
  ok_ids : StronglySorted Z.lt (id <$> db_messages w)
}.

End readings.

(** ** Vocabulary of the further properties *)

(** A string that is empty or starts with a character [strip] keeps. *)
Definition starts_clean (s : string) : bool :=
  match s with
  | EmptyString => true
  | String c _ => negb (isspace c)
  end.

(** The state with another presence dictionary. *)
Definition with_users (d : list (string * string)) (w : World) : World :=
  mkWorld d (rooms w) (live w) (db_messages w) (outbox w) (ticks w).


(** The acknowledgement of a connect. *)
Definition connected_emission (sid : string) : Emission :=
  mkEmission "connected" [("message", VStr "Connected to chat server")]
    (ToSid sid) {[ sid ]}.

Section vocabulary.
Context {env : Env}.

(** The event is a join of connection [c] whose ids resolve to room [r]. *)
Definition joins_room (c r : string) (e : event) : Prop :=
  match e with
  | Join sid data =>
      sid = c ∧ ∃ (a b : Z) (name : value),
                  parse_join data = Some (a, b, name) ∧ get_room a b = r
  | _ => False
  end.

(** The event is a [send_message]. *)
Definition is_send (e : event) : bool :=
  match e with SendMessage _ _ => true | _ => false end.

End vocabulary.

(** A server whose database rejects every commit. *)
Definition broken_db_env : Env := {|
  now := λ n, 1700000000 + Z.of_nat n;
  isoformat := pretty;
  int_of_str := parse_decimal;
  emit_raises := λ _ _, false;
  commit_raises := λ _ _, true;
  query_raises := λ _, false
|}.

(** A server on which emitting [system] raises. *)
Definition broken_notice_env : Env := {|
  now := λ n, 1700000000 + Z.of_nat n;
  isoformat := pretty;
  int_of_str := parse_decimal;
  emit_raises := λ _ e, bool_decide (ev_name e = "system");
  commit_raises := λ _ _, false;
  query_raises := λ _, false
|}.

(** Participant 1 connects a second time while the first connection is
    still open. *)
Definition reconnected_world : World :=
  run (env := quiet_env)
    [Connect "s1" (Some "1"); Connect "s2" (Some "1")] init_world.

(** ** Proof automation *)

Ltac unfold_handler :=
  unfold try_except, getitem, of_option, str_strip, db_add_commit, utcnow,
    join_room, emit, recipients, mbind, Handler_bind, mret, Handler_ret, raise.

Ltac split_one_raise :=
  match goal with
  | |- context [commit_raises ?r ?m] =>
      destruct (commit_raises r m) eqn:?; simpl
  | |- context [emit_raises ?o ?e] =>
      destruct (emit_raises o e) eqn:?; simpl
  end.

(** Case analysis on the calls that may raise, innermost first. *)
Ltac split_raises :=
  repeat match goal with
    | |- context [commit_raises ?r ?m] =>
        destruct (commit_raises r m) eqn:?; simpl
    | |- context [emit_raises ?o ?e] =>
        destruct (emit_raises o e) eqn:?; simpl
    end.

(** * Properties *)

Example get_room_2_1 : get_room 2 1 = "room_1_2".
Proof. reflexivity. Qed.

Example get_room_neg : get_room 7 (-3) = "room_-3_7".
Proof. reflexivity. Qed.

Example strip_example : strip "  hi there  " = "hi there".
Proof. reflexivity. Qed.

Example parse_decimal_example : parse_decimal "-120" = Some (-120).
Proof. reflexivity. Qed.

(** ** The room resolver *)

Lemma pretty_N_char_no_underscore (x : N) :
  Ascii.eqb (pretty_N_char x) "_" = false.
Proof. unfold pretty_N_char. by repeat case_match. Qed.

Lemma pretty_N_go_no_underscore (x : N) (s : string) :
  no_underscore (pretty_N_go x s) = no_underscore s.
Proof.
  revert s. induction (N.lt_wf_0 x) as [x _ IH]; intros s.
  assert (x = 0 ∨ 0 < x)%N as [->|Hpos] by lia.
  - by rewrite pretty_N_go_0.
  - rewrite pretty_N_go_step by done.
    rewrite IH by (by apply N.div_lt). simpl.
    by rewrite pretty_N_char_no_underscore.
Qed.

Lemma pretty_N_no_underscore (x : N) : no_underscore (pretty x) = true.
Proof.
  unfold pretty, pretty_N. case_decide; [done|].
  by rewrite pretty_N_go_no_underscore.
Qed.

Lemma py_str_int_no_underscore (z : Z) : no_underscore (py_str_int z) = true.
Proof.
  unfold py_str_int, pretty, pretty_Z. destruct z as [|p|p]; [done|..].
  - apply (pretty_N_no_underscore (Npos p)).
  - simpl. apply (pretty_N_no_underscore (Npos p)).
Qed.

(** Two strings without underscore that are followed by an underscore end at
    the same place. *)
Lemma underscore_split (s1 s2 t1 t2 : string) :
  no_underscore s1 = true → no_underscore s2 = true →
  s1 +:+ "_" +:+ t1 = s2 +:+ "_" +:+ t2 → s1 = s2 ∧ t1 = t2.
Proof.
  revert s2. induction s1 as [|c s1 IH]; intros [|c' s2] H1 H2 Heq;
    simpl in *.
  - by injection Heq.
  - injection Heq as <- _. by rewrite Ascii.eqb_refl in H2.
  - injection Heq as -> _. by rewrite Ascii.eqb_refl in H1.
  - injection Heq as -> Heq.
    apply andb_prop in H1 as [_ H1]. apply andb_prop in H2 as [_ H2].
    destruct (IH s2 H1 H2 Heq) as [-> ->]. done.
Qed.

Lemma get_room_inv (a b c d : Z) :
  get_room a b = get_room c d →
  Z.min a b = Z.min c d ∧ Z.max a b = Z.max c d.
Proof.
  unfold get_room. intros Heq. simpl in Heq. injection Heq as Heq.
  apply underscore_split in Heq as [H1 H2];
    auto using py_str_int_no_underscore.
  split; by apply (inj pretty).
Qed.

Lemma unordered_comm (a b : Z) : unordered a b = unordered b a.
Proof. unfold unordered. apply (comm_L (∪)). Qed.

Lemma elem_of_unordered (x a b : Z) : x ∈ unordered a b ↔ x = a ∨ x = b.
Proof. unfold unordered. by rewrite elem_of_union, !elem_of_singleton. Qed.

Lemma unordered_inv (a b c d : Z) :
  unordered a b = unordered c d → (a = c ∧ b = d) ∨ (a = d ∧ b = c).
Proof.
  intros Heq.
  assert (a = c ∨ a = d)
    by (apply elem_of_unordered; rewrite <- Heq; apply elem_of_unordered; auto).
  assert (b = c ∨ b = d)
    by (apply elem_of_unordered; rewrite <- Heq; apply elem_of_unordered; auto).
  assert (c = a ∨ c = b)
    by (apply elem_of_unordered; rewrite Heq; apply elem_of_unordered; auto).
  assert (d = a ∨ d = b)
    by (apply elem_of_unordered; rewrite Heq; apply elem_of_unordered; auto).
  lia.
Qed.

Lemma unordered_min_max (a b c d : Z) :
  Z.min a b = Z.min c d → Z.max a b = Z.max c d →
  unordered a b = unordered c d.
Proof.
  unfold unordered. intros Hmin Hmax.
  assert ((a = c ∧ b = d) ∨ (a = d ∧ b = c)) as [[-> ->]|[-> ->]] by lia.
  - done.
  - apply (comm_L (∪)).
Qed.

(** C2: the room resolver is commutative, [get_room a b = get_room b a], and
    injective over unordered pairs: when the pairs [{a, b}] and [{c, d}]
    differ, so do the rooms. *)
Theorem get_room_comm_injective (a b c d : Z) :
  get_room a b = get_room b a ∧
  (unordered a b ≠ unordered c d → get_room a b ≠ get_room c d).
Proof.
  split.
  - unfold get_room. by rewrite Z.min_comm, Z.max_comm.
  - intros Hne Heq. apply Hne.
    apply get_room_inv in Heq as [Hmin Hmax]. by apply unordered_min_max.
Qed.

Lemma get_room_comm_injective_witness :
  get_room 1 2 = get_room 2 1 ∧ get_room 1 2 ≠ get_room 1 12.
Proof.
  split.
  - apply (get_room_comm_injective 1 2 1 12).
  - apply (get_room_comm_injective 1 2 1 12).
    intros H. apply unordered_inv in H. lia.
Defined.

(** ** The history route *)

Lemma between_unordered (user1 user2 : Z) (m : Message) :
  between user1 user2 m = true ↔
  unordered (sender_id m) (receiver_id m) = unordered user1 user2.
Proof.
  unfold between. split.
  - intros H. apply orb_prop in H as [H|H];
      apply andb_prop in H as [H1 H2];
      apply Z.eqb_eq in H1, H2; rewrite H1, H2; [done|].
    apply unordered_comm.
  - intros H. apply unordered_inv in H as [[-> ->]|[-> ->]];
      rewrite !Z.eqb_refl; [done|]. by rewrite orb_true_r.
Qed.

Lemma filter_between (user1 user2 : Z) (rows : list Message) :
  List.filter (between user1 user2) rows =
  filter (λ m, unordered (sender_id m) (receiver_id m) = unordered user1 user2)
         rows.
Proof.
  induction rows as [|m rows IH]; [done|]. simpl. rewrite filter_cons.
  destruct (between user1 user2 m) eqn:Hb.
  - rewrite decide_True by (by apply between_unordered). by rewrite IH.
  - rewrite decide_False; [done|].
    intros H. apply between_unordered in H. congruence.
Qed.

Section history.
Context {env : Env} {engine : QueryEngine}.

(** X18: whatever engine carries out the [ORDER BY], if it returns the rows
    it is given rearranged by ascending timestamp, then for every pair of
    participant ids the history route returns exactly the stored messages
    whose sender and receiver are that pair, in either direction, each once,
    in ascending order of timestamp. *)
Theorem get_messages_sorted_by_timestamp (user1 user2 : Z) (w : World) :
  query_raises (db_messages w) = false →
  ∃ msgs : list Message,
    get_messages user1 user2 w = Json200 (message_json <$> msgs)
    ∧ msgs ≡ₚ filter (λ m, unordered (sender_id m) (receiver_id m)
                            = unordered user1 user2) (db_messages w)
    ∧ (∀ m, m ∈ msgs ↔
            m ∈ db_messages w
            ∧ unordered (sender_id m) (receiver_id m) = unordered user1 user2)
    ∧ Sorted ts_le msgs.
Proof.
  intros Hq. exists (history_rows user1 user2 (db_messages w)).
  assert (history_rows user1 user2 (db_messages w) ≡ₚ
          filter (λ m, unordered (sender_id m) (receiver_id m)
                       = unordered user1 user2) (db_messages w)) as Hperm.
  { unfold history_rows. rewrite order_by_timestamp_perm.
    by rewrite filter_between. }
  split; [|split; [|split]].
  - unfold get_messages. by rewrite Hq.
  - exact Hperm.
  - intros m. rewrite Hperm. rewrite list_elem_of_filter. tauto.
  - apply order_by_timestamp_sorted.
Qed.

End history.

Lemma reachable_run {env : Env} (es : list event) (w : World) :
  reachable w → trace_ok es w = true → reachable (run es w).
Proof.
  revert w. induction es as [|e es IH]; intros w Hw Hok; [done|].
  simpl in Hok. apply andb_prop in Hok as [He Hes].
  apply bool_decide_eq_true in He. simpl. apply IH; [|done].
  by apply reachable_step.
Qed.

Lemma get_messages_sorted_by_timestamp_witness :
  ∃ msgs : list Message,
    get_messages (env := quiet_env) (engine := timestamp_engine) 1 2 tied_world
    = Json200 (message_json (env := quiet_env) <$> msgs)
    ∧ msgs ≡ₚ filter (λ m, unordered (sender_id m) (receiver_id m)
                            = unordered 1 2) (db_messages tied_world)
    ∧ (∀ m, m ∈ msgs ↔
            m ∈ db_messages tied_world
            ∧ unordered (sender_id m) (receiver_id m) = unordered 1 2)
    ∧ Sorted ts_le msgs.
Proof.
  apply (get_messages_sorted_by_timestamp (env := quiet_env)
           (engine := timestamp_engine) 1 2 tied_world).
  reflexivity.
Defined.

(** ** Sending a message *)

Section send.
Context {env : Env}.

Lemma send_body_parse (data : gmap string value) (sid : string) (w : World) :
  send_body data sid w =
  match parse_send data with
  | None => (Raised, w)
  | Some (sender, receiver, text) =>
      (if truthy text then
         msg ← db_add_commit sender receiver text;
         emit "receive_message" (receive_message_payload msg)
              (ToRoom (get_room sender receiver));;
         emit "message_sent" (message_sent_payload msg) (ToSid sid)
       else
         emit "error" [("message", VStr "Message cannot be empty")] (ToSid sid))
        w
  end.
Proof.
  unfold send_body, parse_send, getitem, of_option, str_strip.
  unfold mbind at 1 2 3 4 5 6, Handler_bind, mret, Handler_ret, raise.
  destruct (data !! "sender_id") as [v1|]; simpl; [|done].
  destruct (py_int v1) as [a|]; simpl; [|done].
  destruct (data !! "receiver_id") as [v2|]; simpl; [|done].
  destruct (py_int v2) as [b|]; simpl; [|done].
  destruct (data !! "message") as [[| | |s]|]; simpl; done.
Qed.

(** Every run of the handler, by what the request parses to and by which
    calls raise. *)
Lemma handle_send_message_world (data : gmap string value) (sid : string)
    (w : World) :
  let w' := (handle_send_message data sid w).2 in
  connected_users w' = connected_users w ∧ rooms w' = rooms w
  ∧ live w' = live w ∧
  match parse_send data with
  | None =>
      db_messages w' = db_messages w
      ∧ outbox w' = outbox w ++ [send_failed sid]
  | Some (sender, receiver, text) =>
      if truthy text then
        let msg := new_message w sender receiver text in
        if commit_raises (db_messages w) msg then
          db_messages w' = db_messages w
          ∧ outbox w' = outbox w ++ [send_failed sid]
        else
          db_messages w' = db_messages w ++ [msg]
          ∧ outbox w' =
              outbox w ++ broadcast_of w msg ::
                (if emit_raises (outbox w) (broadcast_of w msg)
                 then [send_failed sid]
                 else ack_of sid msg ::
                        (if emit_raises (outbox w ++ [broadcast_of w msg])
                              (ack_of sid msg)
                         then [send_failed sid] else []))
      else
        db_messages w' = db_messages w
        ∧ outbox w' =
            outbox w ++ empty_rejected sid ::
              (if emit_raises (outbox w) (empty_rejected sid)
               then [send_failed sid] else [])
  end.
Proof.
  unfold handle_send_message, try_except. rewrite send_body_parse.
  destruct (parse_send data) as [[[a b] text]|]; [|by simpl].
  unfold broadcast_of, ack_of, send_failed, empty_rejected, error_emission,
    new_message, members.
  destruct (truthy text); unfold_handler; unfold members; simpl;
    split_raises; rewrite <- ?app_assoc; done.
Qed.

Lemma parse_send_Some (data : gmap string value) (v1 v2 : value)
    (sender receiver : Z) (body : string) :
  data !! "sender_id" = Some v1 → py_int v1 = Some sender →
  data !! "receiver_id" = Some v2 → py_int v2 = Some receiver →
  data !! "message" = Some (VStr body) →
  parse_send data = Some (sender, receiver, strip body).
Proof.
  intros H1 Hs H2 Hr H3. unfold parse_send.
  rewrite H1. simpl. rewrite Hs. simpl. rewrite H2. simpl. rewrite Hr. simpl.
  by rewrite H3.
Qed.

Lemma parse_send_text (data : gmap string value) (sender receiver : Z)
    (text body : string) :
  parse_send data = Some (sender, receiver, text) →
  data !! "message" = Some (VStr body) → text = strip body.
Proof.
  unfold parse_send. intros Hp Hm.
  destruct (data !! "sender_id") as [v1|]; simpl in Hp; [|done].
  destruct (py_int v1); simpl in Hp; [|done].
  destruct (data !! "receiver_id") as [v2|]; simpl in Hp; [|done].
  destruct (py_int v2); simpl in Hp; [|done].
  rewrite Hm in Hp. simpl in Hp. congruence.
Qed.

Lemma parse_send_ext (data1 data2 : gmap string value) :
  data1 !! "sender_id" = data2 !! "sender_id" →
  data1 !! "receiver_id" = data2 !! "receiver_id" →
  data1 !! "message" = data2 !! "message" →
  parse_send data1 = parse_send data2.
Proof. unfold parse_send. by intros -> -> ->. Qed.

(** X19: the events of a stored send, by the control flow of the handler:
    it emits [receive_message] to the room; if that call returns, it then
    emits [message_sent] to the sender, carrying the stored message's
    timestamp and id; if that call raises, the except branch runs instead:
    [message_sent] is not emitted and the sender is sent [error]. *)
Theorem message_sent_follows_broadcast (data : gmap string value)
    (sid : string) (w : World) (v1 v2 : value) (sender receiver : Z)
    (body : string) :
  data !! "sender_id" = Some v1 → py_int v1 = Some sender →
  data !! "receiver_id" = Some v2 → py_int v2 = Some receiver →
  data !! "message" = Some (VStr body) → truthy (strip body) = true →
  let msg := new_message w sender receiver (strip body) in
  let w' := (handle_send_message data sid w).2 in
  commit_raises (db_messages w) msg = false →
  db_messages w' = db_messages w ++ [msg]
  ∧ payload_get "timestamp" (ev_data (ack_of sid msg))
    = Some (VStr (isoformat (timestamp msg)))
  ∧ payload_get "message_id" (ev_data (ack_of sid msg)) = Some (VInt (id msg))
  ∧ (emit_raises (outbox w) (broadcast_of w msg) = false →
     outbox w' =
       outbox w ++ broadcast_of w msg :: ack_of sid msg ::
         (if emit_raises (outbox w ++ [broadcast_of w msg]) (ack_of sid msg)
          then [send_failed sid] else []))
  ∧ (emit_raises (outbox w) (broadcast_of w msg) = true →
     outbox w' = outbox w ++ [broadcast_of w msg; send_failed sid]).
Proof.
  intros H1 Hs H2 Hr H3 Ht msg w' Hc.
  destruct (handle_send_message_world data sid w) as (_ & _ & _ & Hw).
  rewrite (parse_send_Some data v1 v2 sender receiver body) in Hw by done.
  rewrite Ht in Hw. simpl in Hw. fold msg in Hw. rewrite Hc in Hw.
  destruct Hw as [Hdb Hout].
  split; [exact Hdb|]. split; [done|]. split; [done|].
  split; intros Hb; rewrite Hb in Hout; exact Hout.
Qed.

(** C4: when the body of a send is empty after trimming, no message is
    stored, and every event the handler emits is an [error] addressed to the
    sending connection alone: one such event, or a second one when emitting
    the first raised. *)
Theorem empty_message_rejected (data : gmap string value) (sid : string)
    (w : World) (body : string) :
  data !! "message" = Some (VStr body) → strip body = "" →
  let w' := (handle_send_message data sid w).2 in
  db_messages w' = db_messages w
  ∧ ∃ evs : list Emission,
      outbox w' = outbox w ++ evs
      ∧ Forall (λ e, ev_name e = "error" ∧ ev_to e = ToSid sid
                     ∧ ev_rcpts e = {[ sid ]}) evs
      ∧ (evs = [send_failed sid] ∨ evs = [empty_rejected sid]
         ∨ (evs = [empty_rejected sid; send_failed sid]
            ∧ emit_raises (outbox w) (empty_rejected sid) = true)).
Proof.
  intros Hm Hempty w'.
  destruct (handle_send_message_world data sid w) as (_ & _ & _ & Hw).
  fold w' in Hw.
  destruct (parse_send data) as [[[a b] text]|] eqn:Hp.
  - rewrite (parse_send_text data a b text body Hp Hm), Hempty in Hw.
    simpl in Hw. destruct Hw as [Hdb Hout]. split; [exact Hdb|].
    destruct (emit_raises (outbox w) (empty_rejected sid)) eqn:He.
    + exists [empty_rejected sid; send_failed sid].
      split; [exact Hout|]. split; [by repeat constructor|]. auto.
    + exists [empty_rejected sid].
      split; [exact Hout|]. split; [by repeat constructor|]. auto.
  - destruct Hw as [Hdb Hout]. split; [exact Hdb|].
    exists [send_failed sid].
    split; [exact Hout|]. split; [by repeat constructor|]. auto.
Qed.

(** C9: a send is handled the same way whatever [timestamp] field the client
    put in it: two requests that differ only there give the same stored rows
    and the same emitted events.  The timestamp of a stored message, and the
    timestamps carried by [receive_message] and [message_sent], are the
    reading of the server clock made when the row is written. *)
Theorem client_timestamp_ignored (data1 data2 : gmap string value)
    (sid : string) (w : World) :
  (∀ k : string, k ≠ "timestamp" → data1 !! k = data2 !! k) →
  handle_send_message data1 sid w = handle_send_message data2 sid w
  ∧ ∃ (new : list Message) (evs : list Emission),
      db_messages (handle_send_message data1 sid w).2 = db_messages w ++ new
      ∧ outbox (handle_send_message data1 sid w).2 = outbox w ++ evs
      ∧ Forall (λ m, timestamp m = now (ticks w)) new
      ∧ Forall (λ e, ev_name e = "receive_message" ∨ ev_name e = "message_sent" →
                     payload_get "timestamp" (ev_data e)
                     = Some (VStr (isoformat (now (ticks w))))) evs.
Proof.
  intros Hsame. split.
  - unfold handle_send_message, try_except. rewrite !send_body_parse.
    by rewrite (parse_send_ext data1 data2) by (by apply Hsame).
  - destruct (handle_send_message_world data1 sid w) as (_ & _ & _ & Hw).
    assert (Forall (λ e, ev_name e = "receive_message"
                         ∨ ev_name e = "message_sent" →
                         payload_get "timestamp" (ev_data e)
                         = Some (VStr (isoformat (now (ticks w)))))
              [send_failed sid]) as Hfail.
    { repeat constructor. simpl. by intros [?|?]. }
    destruct (parse_send data1) as [[[a b] text]|].
    + destruct (truthy text).
      * simpl in Hw.
        destruct (commit_raises (db_messages w) (new_message w a b text)).
        -- destruct Hw as [Hdb Hout]. exists [], [send_failed sid].
           rewrite app_nil_r. done.
        -- destruct Hw as [Hdb Hout].
           eexists [_], _. split; [exact Hdb|]. split; [exact Hout|].
           split; [by repeat constructor|].
           constructor; [done|].
           destruct (emit_raises (outbox w) _); [done|].
           constructor; [done|].
           destruct (emit_raises _ _); [done|constructor].
      * destruct Hw as [Hdb Hout]. exists []. eexists.
        rewrite app_nil_r. split; [exact Hdb|]. split; [exact Hout|].
        split; [constructor|]. constructor; [by intros [?|?]|].
        destruct (emit_raises _ _); [done|constructor].
    + destruct Hw as [Hdb Hout]. exists [], [send_failed sid].
      rewrite app_nil_r. done.
Qed.

End send.

Lemma message_sent_follows_broadcast_witness :
  outbox (handle_send_message (env := quiet_env) (send_data 1 2 " hi ") "s1"
            joined_world).2
  = outbox joined_world ++
      [broadcast_of (env := quiet_env) joined_world
         (new_message (env := quiet_env) joined_world 1 2 "hi");
       ack_of (env := quiet_env) "s1"
         (new_message (env := quiet_env) joined_world 1 2 "hi")].
Proof.
  exact (proj1 (proj2 (proj2 (proj2
    (message_sent_follows_broadcast (env := quiet_env)
       (send_data 1 2 " hi ") "s1" joined_world (VInt 1) (VInt 2) 1 2 " hi "
       eq_refl eq_refl eq_refl eq_refl eq_refl eq_refl eq_refl)))) eq_refl).
Defined.

Lemma empty_message_rejected_witness :
  db_messages (handle_send_message (env := quiet_env) (send_data 1 2 "  ")
                 "s1" joined_world).2
  = db_messages joined_world.
Proof.
  exact (proj1 (empty_message_rejected (env := quiet_env)
                  (send_data 1 2 "  ") "s1" joined_world "  "
                  eq_refl eq_refl)).
Defined.

Lemma client_timestamp_ignored_witness :
  handle_send_message (env := quiet_env) (send_data 1 2 "hi") "s1" joined_world
  = handle_send_message (env := quiet_env)
      (<["timestamp" := VStr "1999-12-31T23:59:59"]> (send_data 1 2 "hi"))
      "s1" joined_world.
Proof.
  apply (client_timestamp_ignored (env := quiet_env)).
  intros k Hk. symmetry. by apply lookup_insert_ne.
Defined.

(** ** The presence dictionary *)

Lemma dict_get_set_eq (k v : string) (d : list (string * string)) :
  dict_get k (dict_set k v d) = Some v.
Proof.
  induction d as [|[k' v'] d IH]; simpl.
  - by rewrite decide_True.
  - destruct (decide (k' = k)) as [->|Hne]; simpl.
    + by rewrite decide_True.
    + by rewrite decide_False.
Qed.

Lemma dict_get_elem_of (k v : string) (d : list (string * string)) :
  dict_get k d = Some v → (k, v) ∈ d.
Proof.
  induction d as [|[k' v'] d IH]; simpl; [done|].
  destruct (decide (k' = k)) as [->|Hne].
  - intros [= ->]. apply list_elem_of_here.
  - intros H. apply list_elem_of_further. auto.
Qed.

Lemma elem_of_dict_get (k v : string) (d : list (string * string)) :
  NoDup d.*1 → (k, v) ∈ d → dict_get k d = Some v.
Proof.
  induction d as [|[k' v'] d IH]; simpl; intros Hnd Hin.
  - by apply elem_of_nil in Hin.
  - apply NoDup_cons in Hnd as [Hk' Hnd].
    apply elem_of_cons in Hin as [[= <- <-]|Hin].
    + by rewrite decide_True.
    + destruct (decide (k' = k)) as [->|Hne]; [|auto].
      exfalso. apply Hk'. apply list_elem_of_fmap. by exists (k, v).
Qed.

Lemma dict_set_keys (k v : string) (d : list (string * string)) :
  (dict_set k v d).*1 = if decide (k ∈ d.*1) then d.*1 else d.*1 ++ [k].
Proof.
  induction d as [|[k' v'] d IH]; [done|]. cbn [dict_set].
  destruct (decide (k' = k)) as [->|Hne].
  - rewrite decide_True; [done|]. apply list_elem_of_here.
  - rewrite fmap_cons, IH. cbn [fst].
    destruct (decide (k ∈ d.*1)) as [Hin|Hnin].
    + rewrite decide_True; [done|]. by apply list_elem_of_further.
    + rewrite decide_False; [done|].
      intros Hin. apply elem_of_cons in Hin as [->|Hin]; done.
Qed.

Lemma dict_set_keys_NoDup (k v : string) (d : list (string * string)) :
  NoDup d.*1 → NoDup (dict_set k v d).*1.
Proof.
  intros Hnd. rewrite dict_set_keys. case_decide; [done|].
  apply NoDup_app. split; [done|]. split; [|apply NoDup_singleton].
  intros x Hx Hx'. apply list_elem_of_singleton in Hx'. by subst.
Qed.

Lemma dict_set_values (k v x : string) (d : list (string * string)) :
  x ∈ (dict_set k v d).*2 → x = v ∨ x ∈ d.*2.
Proof.
  induction d as [|[k' v'] d IH]; simpl.
  - intros H. apply list_elem_of_singleton in H. auto.
  - destruct (decide (k' = k)) as [->|Hne]; simpl; intros H;
      apply elem_of_cons in H as [->|H]; auto.
    + right. by apply list_elem_of_further.
    + right. apply list_elem_of_here.
    + destruct (IH H) as [->|Hin]; [auto|].
      right. by apply list_elem_of_further.
Qed.

Lemma dict_set_values_NoDup (k v : string) (d : list (string * string)) :
  NoDup d.*2 → v ∉ d.*2 → NoDup (dict_set k v d).*2.
Proof.
  induction d as [|[k' v'] d IH]; simpl; intros Hnd Hv.
  - apply NoDup_singleton.
  - apply NoDup_cons in Hnd as [Hv' Hnd].
    apply not_elem_of_cons in Hv as [Hne Hv].
    destruct (decide (k' = k)) as [->|Hk]; simpl; apply NoDup_cons.
    + done.
    + split; [|by apply IH].
      intros Hin. apply dict_set_values in Hin as [->|Hin]; done.
Qed.

Lemma dict_del_sublist (k : string) (d : list (string * string)) :
  dict_del k d `sublist_of` d.
Proof.
  induction d as [|[k' v'] d IH]; simpl; [done|].
  destruct (decide (k' = k)); [by apply sublist_cons|by apply sublist_skip].
Qed.

Lemma dict_get_del_eq (k : string) (d : list (string * string)) :
  dict_get k (dict_del k d) = None.
Proof.
  induction d as [|[k' v'] d IH]; simpl; [done|].
  destruct (decide (k' = k)) as [->|Hne]; simpl; [done|].
  by rewrite decide_False.
Qed.

Lemma dict_get_value (k v : string) (d : list (string * string)) :
  dict_get k d = Some v → v ∈ d.*2.
Proof.
  intros H. apply dict_get_elem_of in H.
  apply list_elem_of_fmap. by exists (k, v).
Qed.

Lemma elem_of_dict_del (k : string) (d : list (string * string))
    (p : string * string) :
  p ∈ dict_del k d → p ∈ d ∧ p.1 ≠ k.
Proof.
  induction d as [|[k' v'] d IH]; simpl.
  - intros H. by apply elem_of_nil in H.
  - destruct (decide (k' = k)) as [->|Hne].
    + intros H. destruct (IH H). split; [by apply list_elem_of_further|done].
    + intros H. apply elem_of_cons in H as [->|H].
      * split; [apply list_elem_of_here|done].
      * destruct (IH H). split; [by apply list_elem_of_further|done].
Qed.

(** In a dictionary whose values are distinct, a value has one key. *)
Lemma dict_value_key (k1 k2 v : string) (d : list (string * string)) :
  NoDup d.*2 → (k1, v) ∈ d → (k2, v) ∈ d → k1 = k2.
Proof.
  induction d as [|[k' v'] d IH]; simpl; intros Hnd H1 H2.
  - by apply elem_of_nil in H1.
  - apply NoDup_cons in Hnd as [Hv' Hnd].
    apply elem_of_cons in H1 as [H1|H1];
      apply elem_of_cons in H2 as [H2|H2]; simplify_eq; [done|..|by apply IH].
    + exfalso. apply Hv'. apply list_elem_of_fmap. by exists (k2, v').
    + exfalso. apply Hv'. apply list_elem_of_fmap. by exists (k1, v').
Qed.

Section presence.
Context {env : Env}.

Lemma scan_sid_elem_of (sid uid : string) (d : list (string * string)) :
  scan_sid sid d = Some uid → (uid, sid) ∈ d.
Proof.
  induction d as [|[k v] d IH]; simpl; [done|].
  destruct (decide (v = sid)) as [->|Hne].
  - intros [= ->]. apply list_elem_of_here.
  - intros H. apply list_elem_of_further. auto.
Qed.

(** With no connection registered twice, the scan of a disconnect finds the
    participant the connection is registered for. *)
Lemma scan_sid_registered (sid uid : string) (d : list (string * string)) :
  NoDup d.*2 → dict_get uid d = Some sid → scan_sid sid d = Some uid.
Proof.
  induction d as [|[k v] d IH]; simpl; intros Hnd Hget; [done|].
  apply NoDup_cons in Hnd as [Hv Hnd].
  destruct (decide (k = uid)) as [->|Hk].
  - injection Hget as ->. by rewrite decide_True.
  - destruct (decide (v = sid)) as [->|Hne]; [|auto].
    exfalso. apply Hv. by apply (dict_get_value uid).
Qed.

Lemma scan_sid_None (sid : string) (d : list (string * string)) :
  scan_sid sid d = None → sid ∉ d.*2.
Proof.
  induction d as [|[k v] d IH]; simpl; [intros _; apply not_elem_of_nil|].
  destruct (decide (v = sid)) as [->|Hne]; [done|].
  intros H. apply not_elem_of_cons. split; [done|auto].
Qed.

Lemma world_ok_init : world_ok init_world.
Proof. split; simpl; try constructor. intros s H. by apply elem_of_nil in H. Qed.

Lemma world_ok_connect (sid : string) (user_id : option string) (w : World) :
  world_ok w → sid ∉ live w → world_ok (step (Connect sid user_id) w).
Proof.
  intros [Hk Ht Hv Hl Hi] Hfresh. simpl.
  assert (world_ok (open_connection sid w)) as Hopen.
  { split; simpl; try done. intros s Hs. apply elem_of_union_r. auto. }
  destruct user_id as [uid|]; simpl; [|done].
  destruct (truthy uid) eqn:Huid; simpl; [|done].
  unfold_handler. simpl. split; simpl.
  - by apply dict_set_keys_NoDup.
  - rewrite dict_set_keys. case_decide; [done|].
    apply Forall_app. split; [done|]. by repeat constructor.
  - apply dict_set_values_NoDup; [done|]. intros Hin. apply Hfresh. auto.
  - intros s Hs. apply dict_set_values in Hs as [->|Hs].
    + apply elem_of_union_l. by apply elem_of_singleton.
    + apply elem_of_union_r. auto.
  - done.
Qed.

Lemma disconnect_users (sid : string) (w : World) :
  world_ok w →
  connected_users (handle_disconnect sid w).2 `sublist_of` connected_users w
  ∧ sid ∉ (connected_users (handle_disconnect sid w).2).*2.
Proof.
  intros [Hk Ht Hv Hl Hi]. unfold handle_disconnect.
  destruct (scan_sid sid (connected_users w)) as [uid|] eqn:Hscan.
  - apply scan_sid_elem_of in Hscan.
    assert (truthy uid = true) as ->.
    { rewrite Forall_forall in Ht. apply Ht.
      apply list_elem_of_fmap. by exists (uid, sid). }
    simpl. split; [apply dict_del_sublist|].
    intros Hin. apply list_elem_of_fmap in Hin as ([k v] & Hv' & Hin).
    simpl in Hv'. subst v.
    apply elem_of_dict_del in Hin as [Hin Hne]. apply Hne. simpl.
    by apply (dict_value_key k uid sid (connected_users w)).
  - simpl. split; [done|]. by apply scan_sid_None.
Qed.

Lemma world_ok_disconnect (sid : string) (w : World) :
  world_ok w → world_ok (step (Disconnect sid) w).
Proof.
  intros Hok. destruct (disconnect_users sid w Hok) as [Hsub Hgone].
  destruct Hok as [Hk Ht Hv Hl Hi].
  assert (db_messages (handle_disconnect sid w).2 = db_messages w
          ∧ live (handle_disconnect sid w).2 = live w) as [Hdb Hlive].
  { unfold handle_disconnect. by repeat case_match. }
  split; simpl.
  - eapply sublist_NoDup; [exact Hk|]. by apply fmap_sublist.
  - rewrite Forall_forall in Ht |- *. intros k Hin. apply Ht.
    eapply elem_of_sublist; [exact Hin|]. by apply fmap_sublist.
  - eapply sublist_NoDup; [exact Hv|]. by apply fmap_sublist.
  - intros s Hs. rewrite Hlive. apply elem_of_difference. split.
    + apply Hl. eapply elem_of_sublist; [exact Hs|]. by apply fmap_sublist.
    + intros Heq. apply elem_of_singleton in Heq. by subst.
  - by rewrite Hdb.
Qed.

End presence.

(** ** Joining a room *)

Section join.
Context {env : Env}.

Lemma join_body_parse (data : gmap string value) (sid : string) (w : World) :
  join_body data sid w =
  match parse_join data with
  | None => (Raised, w)
  | Some (sender, receiver, name) =>
      (let room := get_room sender receiver in
       join_room room sid;;
       t1 ← utcnow;
       emit "system"
            [("message", VStr (py_str name +:+ " joined the chat"));
             ("timestamp", VStr (isoformat t1))]
            (ToRoom room);;
       t2 ← utcnow;
       emit "joined_room"
            [("room", VStr room);
             ("message",
              VStr ("You joined chat with user " +:+ py_str_int receiver));
             ("timestamp", VStr (isoformat t2))]
            (ToSid sid)) w
  end.
Proof.
  unfold join_body, parse_join, getitem, of_option.
  unfold mbind at 1 2 3 4 5, Handler_bind, mret, Handler_ret, raise.
  destruct (data !! "sender_id") as [v1|]; simpl; [|done].
  destruct (py_int v1) as [a|]; simpl; [|done].
  destruct (data !! "receiver_id") as [v2|]; simpl; [|done].
  destruct (py_int v2) as [b|]; simpl; [|done].
  destruct (data !! "sender_username") as [name|]; simpl; done.
Qed.

Lemma parse_join_Some (data : gmap string value) (v1 v2 name : value)
    (sender receiver : Z) :
  data !! "sender_id" = Some v1 → py_int v1 = Some sender →
  data !! "receiver_id" = Some v2 → py_int v2 = Some receiver →
  data !! "sender_username" = Some name →
  parse_join data = Some (sender, receiver, name).
Proof.
  intros H1 Hs H2 Hr H3. unfold parse_join.
  rewrite H1. simpl. rewrite Hs. simpl. rewrite H2. simpl. rewrite Hr. simpl.
  by rewrite H3.
Qed.

(** Every run of the join handler, by what the request parses to and by
    which calls raise. *)
Lemma handle_join_world (data : gmap string value) (sid : string) (w : World) :
  let w' := (handle_join data sid w).2 in
  connected_users w' = connected_users w ∧ live w' = live w
  ∧ db_messages w' = db_messages w ∧
  match parse_join data with
  | None => rooms w' = rooms w ∧ outbox w' = outbox w ++ [join_failed sid]
  | Some (sender, receiver, name) =>
      let sys := system_of w sid sender receiver name in
      let jr := joined_of w sid sender receiver in
      rooms w' = <[get_room sender receiver := ev_rcpts sys]> (rooms w)
      ∧ outbox w' =
          outbox w ++ sys ::
            (if emit_raises (outbox w) sys then [join_failed sid]
             else jr :: (if emit_raises (outbox w ++ [sys]) jr
                         then [join_failed sid] else []))
  end.
Proof.
  unfold handle_join, try_except. rewrite join_body_parse.
  destruct (parse_join data) as [[[a b] name]|]; [|by simpl].
  unfold system_of, joined_of, join_failed, error_emission.
  unfold_handler. unfold members. simpl. rewrite !lookup_insert_eq. simpl.
  split_raises; rewrite <- ?app_assoc; done.
Qed.

(** A join whose two emissions do not raise returns normally. *)
Lemma handle_join_returns (data : gmap string value) (sid : string)
    (w : World) (sender receiver : Z) (name : value) :
  parse_join data = Some (sender, receiver, name) →
  emit_raises (outbox w) (system_of w sid sender receiver name) = false →
  emit_raises (outbox w ++ [system_of w sid sender receiver name])
    (joined_of w sid sender receiver) = false →
  (handle_join data sid w).1 = Returned tt
  ∧ (join_body data sid w).1 = Returned tt.
Proof.
  intros Hp. unfold handle_join, try_except. rewrite join_body_parse, Hp.
  unfold system_of, joined_of.
  unfold_handler. unfold members. simpl. rewrite !lookup_insert_eq. simpl.
  by intros -> ->.
Qed.

End join.

(** ** Reachable states *)

Lemma next_id_above (rows : list Message) (m : Message) :
  m ∈ rows → id m < next_id rows.
Proof.
  unfold next_id. induction rows as [|m' rows IH]; intros Hin.
  - by apply elem_of_nil in Hin.
  - rewrite fmap_cons. cbn [foldr].
    apply elem_of_cons in Hin as [->|Hin]; [lia|].
    specialize (IH Hin). lia.
Qed.

Lemma StronglySorted_lookup_lt {A : Type} (R : relation A) (l : list A)
    (i j : nat) (x y : A) :
  StronglySorted R l → l !! i = Some x → l !! j = Some y → (i < j)%nat →
  R x y.
Proof.
  intros Hs. revert i j. induction Hs as [|z l Hs IH Hz]; intros i j Hi Hj Hij.
  - done.
  - destruct j as [|j]; [lia|]. simpl in Hj. destruct i as [|i]; simpl in Hi.
    + injection Hi as <-. rewrite Forall_forall in Hz. apply Hz.
      by apply list_elem_of_lookup_2 in Hj.
    + apply (IH i j); [done..|lia].
Qed.

Section reach.
Context {env : Env}.

Lemma world_ok_join (sid : string) (data : gmap string value) (w : World) :
  world_ok w → world_ok (step (Join sid data) w).
Proof.
  intros [Hk Ht Hv Hl Hi]. simpl.
  destruct (handle_join_world data sid w) as (Hu & Hlive & Hdb & _).
  split; by rewrite ?Hu, ?Hlive, ?Hdb.
Qed.

Lemma world_ok_send (sid : string) (data : gmap string value) (w : World) :
  world_ok w → world_ok (step (SendMessage sid data) w).
Proof.
  intros [Hk Ht Hv Hl Hi]. simpl.
  destruct (handle_send_message_world data sid w) as (Hu & _ & Hlive & Hw).
  split; rewrite ?Hu, ?Hlive; try done.
  assert (∀ a b text, StronglySorted Z.lt
            (id <$> db_messages w ++ [new_message w a b text])) as Hnew.
  { intros a b text. rewrite fmap_app. apply StronglySorted_app_2; [|done|by repeat constructor].
    intros x1 x2 H1 H2. apply list_elem_of_singleton in H2 as ->.
    apply list_elem_of_fmap in H1 as (m & -> & Hm). simpl.
    by apply next_id_above. }
  destruct (parse_send data) as [[[a b] text]|]; [|by destruct Hw as [-> _]].
  destruct (truthy text); [|by destruct Hw as [-> _]].
  simpl in Hw. destruct (commit_raises _ _); destruct Hw as [-> _]; done.
Qed.

Lemma reachable_ok (w : World) : reachable w → world_ok w.
Proof.
  induction 1 as [|w e Hw IH He]; [apply world_ok_init|].
  destruct e as [sid uid|sid|sid data|sid data].
  - by apply world_ok_connect.
  - by apply world_ok_disconnect.
  - by apply world_ok_join.
  - by apply world_ok_send.
Qed.

(** C5: in every state the server can reach, whatever the interleaving of
    the events of its connections, the ids of the stored messages are
    strictly increasing in the order the messages were appended, and no two
    messages share an id. *)
Theorem message_ids_increasing (w : World) :
  reachable w →
  (∀ (i j : nat) (mi mj : Message),
     db_messages w !! i = Some mi → db_messages w !! j = Some mj →
     (i < j)%nat → id mi < id mj)
  ∧ (∀ (i j : nat) (mi mj : Message),
       db_messages w !! i = Some mi → db_messages w !! j = Some mj →
       id mi = id mj → i = j)
  ∧ NoDup (id <$> db_messages w).
Proof.
  intros Hw. apply reachable_ok in Hw. destruct Hw as [_ _ _ _ Hids].
  assert (∀ (i j : nat) (mi mj : Message),
            db_messages w !! i = Some mi → db_messages w !! j = Some mj →
            (i < j)%nat → id mi < id mj) as Hlt.
  { intros i j mi mj Hi Hj Hij.
    apply (StronglySorted_lookup_lt Z.lt (id <$> db_messages w) i j);
      [done| | |done]; rewrite list_lookup_fmap; by (rewrite Hi || rewrite Hj). }
  assert (∀ (i j : nat) (mi mj : Message),
            db_messages w !! i = Some mi → db_messages w !! j = Some mj →
            id mi = id mj → i = j) as Hinj.
  { intros i j mi mj Hi Hj Heq.
    destruct (Nat.lt_trichotomy i j) as [Hij|[Hij|Hij]]; [|done|].
    - specialize (Hlt i j mi mj Hi Hj Hij). lia.
    - specialize (Hlt j i mj mi Hj Hi Hij). lia. }
  split; [exact Hlt|]. split; [exact Hinj|].
  apply NoDup_alt. intros i j x Hi Hj.
  rewrite list_lookup_fmap in Hi, Hj.
  destruct (db_messages w !! i) as [mi|] eqn:Hmi; [|done].
  destruct (db_messages w !! j) as [mj|] eqn:Hmj; [|done].
  simpl in Hi, Hj. apply (Hinj i j mi mj); congruence.
Qed.

End reach.

(** ** Connections, rooms and presence *)

Section relay.
Context {env : Env}.

(** C6: a join with ids that parse and a display name, whose emissions do
    not raise, emits exactly two events: one [system] notice, with the name
    and a reading of the server clock, to the members of the resolved room,
    the joiner among them, and one [joined_room] confirmation to the joining
    connection alone. *)
Theorem join_notifies_room (data : gmap string value) (sid : string)
    (w : World) (v1 v2 name : value) (sender receiver : Z) :
  data !! "sender_id" = Some v1 → py_int v1 = Some sender →
  data !! "receiver_id" = Some v2 → py_int v2 = Some receiver →
  data !! "sender_username" = Some name →
  let room := get_room sender receiver in
  let sys := system_of w sid sender receiver name in
  let jr := joined_of w sid sender receiver in
  let w' := (handle_join data sid w).2 in
  emit_raises (outbox w) sys = false →
  emit_raises (outbox w ++ [sys]) jr = false →
  (handle_join data sid w).1 = Returned tt
  ∧ outbox w' = outbox w ++ [sys; jr]
  ∧ ev_to sys = ToRoom room
  ∧ ev_rcpts sys = members w' room
  ∧ members w' room = {[ sid ]} ∪ members w room
  ∧ sid ∈ ev_rcpts sys
  ∧ payload_get "message" (ev_data sys)
    = Some (VStr (py_str name +:+ " joined the chat"))
  ∧ payload_get "timestamp" (ev_data sys)
    = Some (VStr (isoformat (now (ticks w))))
  ∧ ev_to jr = ToSid sid
  ∧ ev_rcpts jr = {[ sid ]}.
Proof.
  intros H1 Hs H2 Hr H3 room sys jr w' Hsys Hjr.
  pose proof (parse_join_Some data v1 v2 name sender receiver
                H1 Hs H2 Hr H3) as Hp.
  destruct (handle_join_world data sid w) as (_ & _ & _ & Hw).
  rewrite Hp in Hw. simpl in Hw. fold sys jr w' in Hw.
  rewrite Hsys, Hjr in Hw. destruct Hw as [Hrooms Hout].
  assert (members w' room = {[ sid ]} ∪ members w room) as Hmem.
  { unfold members at 1. rewrite Hrooms. fold room.
    by rewrite lookup_insert_eq. }
  split; [by apply (handle_join_returns data sid w sender receiver name)|].
  split; [exact Hout|]. split; [done|]. split; [by rewrite Hmem|].
  split; [exact Hmem|]. split; [|done].
  simpl. apply elem_of_union_l. by apply elem_of_singleton.
Qed.

(** C7: when a connection that is registered for participant [A]
    disconnects, [A] is no longer in the presence dictionary afterwards, the
    connection is a member of no room, and nothing at all was emitted. *)
Theorem disconnect_clears_presence (w : World) (A sid : string) :
  reachable w → dict_get A (connected_users w) = Some sid →
  let w' := step (Disconnect sid) w in
  dict_get A (connected_users w') = None
  ∧ (∀ room : string, sid ∉ members w' room)
  ∧ (sid ∉ live w')
  ∧ outbox w' = outbox w.
Proof.
  intros Hw Hget w'. apply reachable_ok in Hw. destruct Hw as [Hk Ht Hv Hl Hi].
  assert (truthy A = true) as HA.
  { rewrite Forall_forall in Ht. apply Ht. apply list_elem_of_fmap.
    exists (A, sid). split; [done|]. by apply dict_get_elem_of. }
  assert ((handle_disconnect sid w).2
          = mkWorld (dict_del A (connected_users w)) (rooms w) (live w)
                    (db_messages w) (outbox w) (ticks w)) as Hh.
  { unfold handle_disconnect.
    by rewrite (scan_sid_registered sid A (connected_users w) Hv Hget), HA. }
  unfold w'. simpl. rewrite Hh. simpl.
  split; [apply dict_get_del_eq|]. split; [|split; [|done]].
  - intros room. unfold members. simpl. rewrite lookup_fmap.
    destruct (rooms w !! room) as [s|]; simpl.
    + intros Hin. apply elem_of_difference in Hin as [_ Hin].
      apply Hin. by apply elem_of_singleton.
    + apply not_elem_of_empty.
  - intros Hin. apply elem_of_difference in Hin as [_ Hin].
    apply Hin. by apply elem_of_singleton.
Qed.

(** C8: in every state the server can reach, a participant id is a key of
    the presence dictionary at most once, so it has at most one connection;
    and a connect for an id replaces whatever connection the id had. *)
Theorem presence_at_most_one (w : World) :
  reachable w →
  NoDup (connected_users w).*1
  ∧ (∀ uid c1 c2 : string,
       (uid, c1) ∈ connected_users w → (uid, c2) ∈ connected_users w → c1 = c2)
  ∧ (∀ uid sid : string,
       truthy uid = true →
       let w' := step (Connect sid (Some uid)) w in
       dict_get uid (connected_users w') = Some sid
       ∧ NoDup (connected_users w').*1
       ∧ (∀ c : string, (uid, c) ∈ connected_users w' → c = sid)).
Proof.
  intros Hw. apply reachable_ok in Hw. destruct Hw as [Hk _ _ _ _].
  split; [exact Hk|]. split.
  - intros uid c1 c2 H1 H2.
    apply (elem_of_dict_get _ _ _ Hk) in H1, H2. congruence.
  - intros uid sid Huid w'.
    assert (connected_users w' = dict_set uid sid (connected_users w)) as ->.
    { unfold w'. simpl. by rewrite Huid. }
    pose proof (dict_set_keys_NoDup uid sid (connected_users w) Hk) as Hk'.
    split; [apply dict_get_set_eq|]. split; [exact Hk'|].
    intros c Hc. apply (elem_of_dict_get _ _ _ Hk') in Hc.
    rewrite dict_get_set_eq in Hc. congruence.
Qed.

(** C10: a connect that carries no participant id, or an empty one, changes
    nothing in the presence dictionary and emits nothing, not even
    [connected]; the handler returns normally and the connection is open. *)
Theorem connect_without_user_id (sid : string) (w : World) :
  (let w' := step (Connect sid None) w in
   (handle_connect None sid (open_connection sid w)).1 = Returned tt
   ∧ connected_users w' = connected_users w
   ∧ outbox w' = outbox w
   ∧ sid ∈ live w')
  ∧ (let w' := step (Connect sid (Some "")) w in
     (handle_connect (Some "") sid (open_connection sid w)).1 = Returned tt
     ∧ connected_users w' = connected_users w
     ∧ outbox w' = outbox w
     ∧ sid ∈ live w').
Proof.
  split; simpl; repeat split; try done;
    apply elem_of_union_l; by apply elem_of_singleton.
Qed.

End relay.

(** ** The theorems at work on the two-participant chat *)

Lemma joined_world_reachable : reachable (env := quiet_env) joined_world.
Proof. apply reachable_run; [constructor|]. by vm_compute. Qed.

Lemma tied_world_reachable : reachable (env := frozen_clock_env) tied_world.
Proof. apply reachable_run; [constructor|]. by vm_compute. Qed.

Lemma message_ids_increasing_witness : NoDup (id <$> db_messages tied_world).
Proof.
  exact (proj2 (proj2 (message_ids_increasing (env := frozen_clock_env)
                         tied_world tied_world_reachable))).
Defined.

Lemma join_notifies_room_witness :
  outbox (handle_join (env := quiet_env) (join_data 2 1 "Bob") "s2"
            (run (env := quiet_env) (take 3 two_joined) init_world)).2
  = outbox (run (env := quiet_env) (take 3 two_joined) init_world) ++
      [system_of (env := quiet_env)
         (run (env := quiet_env) (take 3 two_joined) init_world)
         "s2" 2 1 (VStr "Bob");
       joined_of (env := quiet_env)
         (run (env := quiet_env) (take 3 two_joined) init_world) "s2" 2 1].
Proof.
  exact (proj1 (proj2
    (join_notifies_room (env := quiet_env) (join_data 2 1 "Bob") "s2"
       (run (env := quiet_env) (take 3 two_joined) init_world)
       (VInt 2) (VInt 1) (VStr "Bob") 2 1
       eq_refl eq_refl eq_refl eq_refl eq_refl eq_refl eq_refl))).
Defined.

Lemma disconnect_clears_presence_witness :
  dict_get "1"
    (connected_users (step (env := quiet_env) (Disconnect "s1") joined_world))
  = None.
Proof.
  exact (proj1 (disconnect_clears_presence (env := quiet_env) joined_world
                  "1" "s1" joined_world_reachable eq_refl)).
Defined.

Lemma presence_at_most_one_witness :
  dict_get "1"
    (connected_users
       (step (env := quiet_env) (Connect "s9" (Some "1")) joined_world))
  = Some "s9".
Proof.
  exact (proj1 (proj2 (proj2
    (presence_at_most_one (env := quiet_env) joined_world
       joined_world_reachable)) "1" "s9" eq_refl)).
Defined.

Example join_reaches_both :
  elements (ev_rcpts (system_of (env := quiet_env)
              (run (env := quiet_env) (take 3 two_joined) init_world)
              "s2" 2 1 (VStr "Bob")))
  ≡ₚ ["s1"; "s2"].
Proof. by vm_compute. Qed.

Example chat_outbox :
  (λ e, (ev_name e, ev_to e)) <$>
    outbox (run (env := quiet_env)
              (two_joined ++ [SendMessage "s1" (send_data 1 2 "hi")])
              init_world)
  = [("connected", ToSid "s1"); ("connected", ToSid "s2");
     ("system", ToRoom "room_1_2"); ("joined_room", ToSid "s1");
     ("system", ToRoom "room_1_2"); ("joined_room", ToSid "s2");
     ("receive_message", ToRoom "room_1_2"); ("message_sent", ToSid "s1")].
Proof. by vm_compute. Qed.

(** * Further properties *)

(** ** The history route and the table *)

Lemma between_sym (user1 user2 : Z) (m : Message) :
  between user1 user2 m = between user2 user1 m.
Proof. unfold between. apply orb_comm. Qed.

Lemma filter_between_sym (user1 user2 : Z) (rows : list Message) :
  List.filter (between user1 user2) rows
  = List.filter (between user2 user1) rows.
Proof.
  induction rows as [|m rows IH]; [done|]. simpl.
  by rewrite IH, between_sym.
Qed.

Lemma StronglySorted_lt_NoDup (l : list Z) : StronglySorted Z.lt l → NoDup l.
Proof.
  induction 1 as [|x l Hs IH Hx]; constructor; [|done].
  intros Hin. rewrite Forall_forall in Hx. specialize (Hx x Hin). lia.
Qed.

Lemma world_ok_rows_NoDup (w : World) : world_ok w → NoDup (db_messages w).
Proof.
  intros Hok. apply (NoDup_fmap_1 id). apply StronglySorted_lt_NoDup.
  by destruct Hok.
Qed.

Section more_history.
Context {env : Env} {engine : QueryEngine}.

(** X1: the history of a pair does not depend on the order in which the two
    participants are given. *)
Theorem get_messages_symmetric (user1 user2 : Z) (w : World) :
  get_messages user1 user2 w = get_messages user2 user1 w.
Proof.
  unfold get_messages, history_rows. by rewrite filter_between_sym.
Qed.

Lemma parse_send_ids (data : gmap string value) (v1 v2 : value)
    (a b a' b' : Z) (text : string) :
  data !! "sender_id" = Some v1 → py_int v1 = Some a →
  data !! "receiver_id" = Some v2 → py_int v2 = Some b →
  parse_send data = Some (a', b', text) → a' = a ∧ b' = b.
Proof.
  unfold parse_send. intros -> Ha ->. simpl. rewrite Ha. simpl.
  intros ->. simpl. destruct (data !! "message") as [[| | |s]|]; simpl;
    intros [=]; by subst.
Qed.

(** X2: after a send is stored, the history of its sender and receiver, asked
    in either order, lists the new message, and lists no row twice. *)
Theorem sent_message_in_history (data : gmap string value) (sid : string)
    (w : World) (v1 v2 : value) (sender receiver : Z) (body : string) :
  reachable w →
  data !! "sender_id" = Some v1 → py_int v1 = Some sender →
  data !! "receiver_id" = Some v2 → py_int v2 = Some receiver →
  data !! "message" = Some (VStr body) → truthy (strip body) = true →
  let msg := new_message w sender receiver (strip body) in
  let w' := (handle_send_message data sid w).2 in
  commit_raises (db_messages w) msg = false →
  query_raises (db_messages w') = false →
  ∃ rows : list Message,
    get_messages sender receiver w' = Json200 (message_json <$> rows)
    ∧ get_messages receiver sender w' = Json200 (message_json <$> rows)
    ∧ msg ∈ rows ∧ NoDup rows.
Proof.
  intros Hw H1 Hs H2 Hr H3 Ht msg w' Hc Hq.
  apply reachable_ok in Hw.
  pose proof (world_ok_send sid data w Hw) as Hok'. simpl in Hok'. fold w' in Hok'.
  destruct (handle_send_message_world data sid w) as (_ & _ & _ & Hdb).
  rewrite (parse_send_Some data v1 v2 sender receiver body) in Hdb by done.
  rewrite Ht in Hdb. simpl in Hdb. fold msg w' in Hdb. rewrite Hc in Hdb.
  destruct Hdb as [Hdb _].
  exists (history_rows sender receiver (db_messages w')).
  split; [|split; [|split]].
  - unfold get_messages. by rewrite Hq.
  - unfold get_messages, history_rows. rewrite Hq.
    by rewrite (filter_between_sym receiver sender).
  - unfold history_rows. rewrite order_by_timestamp_perm, filter_between.
    apply list_elem_of_filter. split; [done|].
    rewrite Hdb. apply elem_of_app. right. by apply list_elem_of_singleton.
  - unfold history_rows. rewrite order_by_timestamp_perm, filter_between.
    apply NoDup_filter. by apply world_ok_rows_NoDup.
Qed.

(** X3: a send between two participants leaves the history of every other
    pair as it was. *)
Theorem send_keeps_other_histories (data : gmap string value) (sid : string)
    (w : World) (v1 v2 : value) (sender receiver user1 user2 : Z) :
  data !! "sender_id" = Some v1 → py_int v1 = Some sender →
  data !! "receiver_id" = Some v2 → py_int v2 = Some receiver →
  unordered sender receiver ≠ unordered user1 user2 →
  history_rows user1 user2 (db_messages (handle_send_message data sid w).2)
  = history_rows user1 user2 (db_messages w).
Proof.
  intros H1 Hs H2 Hr Hne.
  destruct (handle_send_message_world data sid w) as (_ & _ & _ & Hdb).
  destruct (parse_send data) as [[[a b] text]|] eqn:Hp;
    [|by destruct Hdb as [-> _]].
  destruct (parse_send_ids data v1 v2 sender receiver a b text H1 Hs H2 Hr Hp)
    as [-> ->].
  destruct (truthy text); [|by destruct Hdb as [-> _]].
  simpl in Hdb. destruct (commit_raises _ _); destruct Hdb as [-> _]; [done|].
  unfold history_rows. rewrite List.filter_app. simpl.
  destruct (between user1 user2 (new_message w sender receiver text)) eqn:Hb.
  - apply between_unordered in Hb. done.
  - by rewrite app_nil_r.
Qed.

End more_history.

(** ** What the handlers leave alone *)

Lemma rstrip_idemp (s : string) : rstrip (rstrip s) = rstrip s.
Proof.
  induction s as [|c s IH]; [done|]. simpl.
  destruct (rstrip s) as [|c' r] eqn:Hr.
  - destruct (isspace c) eqn:Hc; [done|]. simpl. by rewrite Hc.
  - simpl in IH |- *. by rewrite IH.
Qed.

Lemma lstrip_starts_clean (s : string) : starts_clean (lstrip s) = true.
Proof.
  induction s as [|c s IH]; [done|]. simpl.
  destruct (isspace c) eqn:Hc; [done|]. simpl. by rewrite Hc.
Qed.

Lemma rstrip_starts_clean (s : string) :
  starts_clean s = true → starts_clean (rstrip s) = true.
Proof.
  destruct s as [|c s]; [done|]. simpl. intros Hc.
  destruct (rstrip s); [|exact Hc].
  destruct (isspace c) eqn:Hsp; [done|]. simpl. by rewrite Hsp.
Qed.

Lemma lstrip_clean (s : string) : starts_clean s = true → lstrip s = s.
Proof. destruct s as [|c s]; [done|]. simpl. by destruct (isspace c). Qed.

Lemma strip_idemp (s : string) : strip (strip s) = strip s.
Proof.
  unfold strip.
  rewrite (lstrip_clean (rstrip (lstrip s)))
    by apply rstrip_starts_clean, lstrip_starts_clean.
  apply rstrip_idemp.
Qed.

Section frames.
Context {env : Env}.

Lemma handle_connect_world (user_id : option string) (sid : string)
    (w : World) :
  let w' := (handle_connect user_id sid w).2 in
  rooms w' = rooms w ∧ live w' = live w ∧ db_messages w' = db_messages w ∧
  match user_id with
  | Some uid =>
      if truthy uid then
        connected_users w' = dict_set uid sid (connected_users w)
        ∧ outbox w' = outbox w ++ [connected_emission sid]
      else connected_users w' = connected_users w ∧ outbox w' = outbox w
  | None => connected_users w' = connected_users w ∧ outbox w' = outbox w
  end.
Proof.
  destruct user_id as [uid|]; simpl; [|done].
  destruct (truthy uid); simpl; done.
Qed.

Lemma handle_disconnect_world (sid : string) (w : World) :
  let w' := (handle_disconnect sid w).2 in
  rooms w' = rooms w ∧ live w' = live w ∧ db_messages w' = db_messages w
  ∧ outbox w' = outbox w
  ∧ (connected_users w' = connected_users w
     ∨ ∃ uid, scan_sid sid (connected_users w) = Some uid
              ∧ connected_users w' = dict_del uid (connected_users w)).
Proof.
  unfold handle_disconnect.
  destruct (scan_sid sid (connected_users w)) as [uid|]; simpl; [|auto 10].
  destruct (truthy uid); simpl; eauto 10.
Qed.

Lemma step_db_messages (e : event) (w : World) :
  db_messages (step e w) = db_messages w
  ∨ ∃ (sid : string) (data : gmap string value) (a b : Z) (body : string),
      e = SendMessage sid data
      ∧ truthy (strip body) = true
      ∧ db_messages (step e w)
        = db_messages w ++ [new_message w a b (strip body)].
Proof.
  destruct e as [sid uid|sid|sid data|sid data]; simpl.
  - left. by destruct (handle_connect_world uid sid (open_connection sid w))
      as (_ & _ & -> & _).
  - left. by destruct (handle_disconnect_world sid w) as (_ & _ & -> & _).
  - left. by destruct (handle_join_world data sid w) as (_ & _ & -> & _).
  - destruct (handle_send_message_world data sid w) as (_ & _ & _ & Hdb).
    destruct (parse_send data) as [[[a b] text]|] eqn:Hp;
      [|left; by destruct Hdb].
    destruct (truthy text) eqn:Ht; [|left; by destruct Hdb].
    simpl in Hdb. destruct (commit_raises _ _); [left; by destruct Hdb|].
    right. destruct Hdb as [-> _].
    assert (∃ body, text = strip body) as [body ->].
    { unfold parse_send in Hp.
      destruct (data !! "sender_id") as [v1|]; simpl in Hp; [|done].
      destruct (py_int v1); simpl in Hp; [|done].
      destruct (data !! "receiver_id") as [v2|]; simpl in Hp; [|done].
      destruct (py_int v2); simpl in Hp; [|done].
      destruct (data !! "message") as [[| | |s]|]; simpl in Hp; try done.
      exists s. congruence. }
    by exists sid, data, a, b, body.
Qed.

(** X4: in every state the server can reach, the body of every stored
    message is non-empty and is its own trimmed form: no stored body starts
    or ends with white space. *)
Theorem stored_bodies_trimmed (w : World) :
  reachable w →
  Forall (λ m, message m ≠ "" ∧ strip (message m) = message m)
         (db_messages w).
Proof.
  induction 1 as [|w e Hw IH He]; [constructor|].
  destruct (step_db_messages e w) as [->|(sid & data & a & b & body & _ & Ht & ->)];
    [done|].
  apply Forall_app. split; [done|]. constructor; [|constructor]. simpl.
  split; [|apply strip_idemp].
  intros Hempty. by rewrite Hempty in Ht.
Qed.

(** X5: the table of messages is append-only.  Whatever events happen, the
    rows stored before are still there, unchanged and in the same order,
    at the front of the table; one event adds at most one row, and only a
    [send_message] adds any. *)
Theorem messages_append_only (es : list event) (w : World) :
  db_messages w `prefix_of` db_messages (run es w)
  ∧ (length (db_messages (run es w))
     ≤ length (db_messages w) + length (List.filter is_send es))%nat.
Proof.
  revert w. induction es as [|e es IH]; intros w; simpl.
  - split; [done|lia].
  - destruct (IH (step e w)) as [Hpre Hlen].
    destruct (step_db_messages e w)
      as [Heq|(sid & data & a & b & body & -> & _ & Heq)].
    + rewrite Heq in Hpre, Hlen. split; [done|].
      destruct (is_send e); simpl; lia.
    + rewrite Heq in Hpre, Hlen. rewrite length_app in Hlen. simpl in *.
      split; [|lia]. etrans; [|exact Hpre]. by apply prefix_app_r.
Qed.

End frames.

(** ** Failures inside the handlers *)

Section failures.
Context {env : Env}.

Lemma parse_join_None (data : gmap string value) :
  data !! "sender_id" = None
  ∨ (∃ v, data !! "sender_id" = Some v ∧ py_int v = None)
  ∨ data !! "receiver_id" = None
  ∨ (∃ v, data !! "receiver_id" = Some v ∧ py_int v = None)
  ∨ data !! "sender_username" = None →
  parse_join data = None.
Proof.
  unfold parse_join.
  intros [H|[(v & H & Hv)|[H|[(v & H & Hv)|H]]]].
  - by rewrite H.
  - rewrite H. simpl. by rewrite Hv.
  - destruct (data !! "sender_id") as [v1|]; simpl; [|done].
    destruct (py_int v1); simpl; [|done]. by rewrite H.
  - destruct (data !! "sender_id") as [v1|]; simpl; [|done].
    destruct (py_int v1); simpl; [|done]. rewrite H. simpl. by rewrite Hv.
  - destruct (data !! "sender_id") as [v1|]; simpl; [|done].
    destruct (py_int v1); simpl; [|done].
    destruct (data !! "receiver_id") as [v2|]; simpl; [|done].
    destruct (py_int v2); simpl; [|done]. by rewrite H.
Qed.

Lemma parse_send_None (data : gmap string value) :
  data !! "sender_id" = None
  ∨ (∃ v, data !! "sender_id" = Some v ∧ py_int v = None)
  ∨ data !! "receiver_id" = None
  ∨ (∃ v, data !! "receiver_id" = Some v ∧ py_int v = None)
  ∨ data !! "message" = None
  ∨ (∃ v, data !! "message" = Some v ∧ ∀ s, v ≠ VStr s) →
  parse_send data = None.
Proof.
  unfold parse_send.
  intros [H|[(v & H & Hv)|[H|[(v & H & Hv)|[H|(v & H & Hv)]]]]].
  - by rewrite H.
  - rewrite H. simpl. by rewrite Hv.
  - destruct (data !! "sender_id") as [v1|]; simpl; [|done].
    destruct (py_int v1); simpl; [|done]. by rewrite H.
  - destruct (data !! "sender_id") as [v1|]; simpl; [|done].
    destruct (py_int v1); simpl; [|done]. rewrite H. simpl. by rewrite Hv.
  - destruct (data !! "sender_id") as [v1|]; simpl; [|done].
    destruct (py_int v1); simpl; [|done].
    destruct (data !! "receiver_id") as [v2|]; simpl; [|done].
    destruct (py_int v2); simpl; [|done]. by rewrite H.
  - destruct (data !! "sender_id") as [v1|]; simpl; [|done].
    destruct (py_int v1); simpl; [|done].
    destruct (data !! "receiver_id") as [v2|]; simpl; [|done].
    destruct (py_int v2); simpl; [|done]. rewrite H. simpl.
    destruct v as [| | |s]; try done. by destruct (Hv s).
Qed.

(** X6: a join that lacks one of its three fields, or whose sender or
    receiver id is not an integer, changes no room membership, and the only
    event emitted is one [error] ("Failed to join room") to the joining
    connection. *)
Theorem invalid_join_rejected (data : gmap string value) (sid : string)
    (w : World) :
  data !! "sender_id" = None
  ∨ (∃ v, data !! "sender_id" = Some v ∧ py_int v = None)
  ∨ data !! "receiver_id" = None
  ∨ (∃ v, data !! "receiver_id" = Some v ∧ py_int v = None)
  ∨ data !! "sender_username" = None →
  let w' := (handle_join data sid w).2 in
  rooms w' = rooms w
  ∧ outbox w' = outbox w ++ [join_failed sid]
  ∧ connected_users w' = connected_users w
  ∧ db_messages w' = db_messages w.
Proof.
  intros Hbad w'. apply parse_join_None in Hbad.
  destruct (handle_join_world data sid w) as (Hu & _ & Hdb & Hw).
  rewrite Hbad in Hw. destruct Hw as [Hr Ho]. done.
Qed.

(** X7: a send that lacks one of its three fields, whose sender or receiver
    id is not an integer, or whose message is not a string, stores nothing,
    and the only event emitted is one [error] ("Failed to send message") to
    the sending connection. *)
Theorem invalid_send_rejected (data : gmap string value) (sid : string)
    (w : World) :
  data !! "sender_id" = None
  ∨ (∃ v, data !! "sender_id" = Some v ∧ py_int v = None)
  ∨ data !! "receiver_id" = None
  ∨ (∃ v, data !! "receiver_id" = Some v ∧ py_int v = None)
  ∨ data !! "message" = None
  ∨ (∃ v, data !! "message" = Some v ∧ ∀ s, v ≠ VStr s) →
  let w' := (handle_send_message data sid w).2 in
  db_messages w' = db_messages w
  ∧ outbox w' = outbox w ++ [send_failed sid]
  ∧ rooms w' = rooms w
  ∧ connected_users w' = connected_users w.
Proof.
  intros Hbad w'. apply parse_send_None in Hbad.
  destruct (handle_send_message_world data sid w) as (Hu & Hr & _ & Hw).
  rewrite Hbad in Hw. destruct Hw as [Hdb Ho]. done.
Qed.

(** X8: when the commit of a valid send raises, no row is added, nothing is
    broadcast to the room and no [message_sent] is emitted: the only event is
    one [error] to the sending connection. *)
Theorem failed_commit_not_broadcast (data : gmap string value) (sid : string)
    (w : World) (v1 v2 : value) (sender receiver : Z) (body : string) :
  data !! "sender_id" = Some v1 → py_int v1 = Some sender →
  data !! "receiver_id" = Some v2 → py_int v2 = Some receiver →
  data !! "message" = Some (VStr body) → truthy (strip body) = true →
  commit_raises (db_messages w)
    (new_message w sender receiver (strip body)) = true →
  let w' := (handle_send_message data sid w).2 in
  db_messages w' = db_messages w
  ∧ outbox w' = outbox w ++ [send_failed sid].
Proof.
  intros H1 Hs H2 Hr H3 Ht Hc w'.
  destruct (handle_send_message_world data sid w) as (_ & _ & _ & Hw).
  rewrite (parse_send_Some data v1 v2 sender receiver body) in Hw by done.
  rewrite Ht in Hw. simpl in Hw. by rewrite Hc in Hw.
Qed.

(** X9: a join is not undone when its notice fails.  If emitting [system]
    raises, the connection is a member of the room all the same, no
    [joined_room] is emitted, and the joining connection is sent [error]. *)
Theorem join_kept_when_notice_fails (data : gmap string value) (sid : string)
    (w : World) (v1 v2 name : value) (sender receiver : Z) :
  data !! "sender_id" = Some v1 → py_int v1 = Some sender →
  data !! "receiver_id" = Some v2 → py_int v2 = Some receiver →
  data !! "sender_username" = Some name →
  emit_raises (outbox w) (system_of w sid sender receiver name) = true →
  let w' := (handle_join data sid w).2 in
  sid ∈ members w' (get_room sender receiver)
  ∧ outbox w' =
      outbox w ++ [system_of w sid sender receiver name; join_failed sid].
Proof.
  intros H1 Hs H2 Hr H3 Hraise w'.
  destruct (handle_join_world data sid w) as (_ & _ & _ & Hw).
  rewrite (parse_join_Some data v1 v2 name sender receiver) in Hw by done.
  simpl in Hw. rewrite Hraise in Hw. destruct Hw as [Hrooms Hout].
  split; [|exact Hout].
  unfold members, w'. rewrite Hrooms, lookup_insert_eq. simpl.
  apply elem_of_union_l. by apply elem_of_singleton.
Qed.

(** X10: the join and send handlers let no exception escape as long as
    emitting [error] to the connection itself does not raise: whatever the
    request holds and whichever other call raises, they return normally. *)
Theorem handlers_contain_exceptions (data : gmap string value) (sid : string)
    (w : World) :
  (∀ (sent : list Emission) (text : string),
     emit_raises sent (error_emission text sid) = false) →
  (handle_join data sid w).1 = Returned tt
  ∧ (handle_send_message data sid w).1 = Returned tt.
Proof.
  intros Herr. unfold error_emission in Herr. split.
  - unfold handle_join, try_except. rewrite join_body_parse.
    destruct (parse_join data) as [[[a b] name]|];
      unfold_handler; simpl; repeat (rewrite ?Herr; simpl; split_one_raise);
      by rewrite ?Herr.
  - unfold handle_send_message, try_except. rewrite send_body_parse.
    destruct (parse_send data) as [[[a b] text]|];
      [|unfold_handler; simpl; by rewrite ?Herr].
    destruct (truthy text); unfold_handler; simpl;
      repeat (rewrite ?Herr; simpl; split_one_raise); by rewrite ?Herr.
Qed.

(** X11: the send and join handlers never consult the presence dictionary:
    run with any other dictionary they return the same, store the same row
    and emit the same events, and hand the dictionary back untouched.  In
    particular the sender id of a stored message is the one the request
    names, whichever participant the sending connection registered as. *)
Theorem handlers_ignore_presence (data : gmap string value) (sid : string)
    (d : list (string * string)) (w : World) :
  handle_send_message data sid (with_users d w)
  = ((handle_send_message data sid w).1,
     with_users d (handle_send_message data sid w).2)
  ∧ handle_join data sid (with_users d w)
    = ((handle_join data sid w).1, with_users d (handle_join data sid w).2).
Proof.
  split.
  - unfold handle_send_message, try_except. rewrite !send_body_parse.
    destruct (parse_send data) as [[[a b] text]|];
      [|unfold_handler; simpl; by split_raises].
    destruct (truthy text); unfold_handler; unfold members; simpl;
      by split_raises.
  - unfold handle_join, try_except. rewrite !join_body_parse.
    destruct (parse_join data) as [[[a b] name]|];
      unfold_handler; unfold members; simpl; by split_raises.
Qed.

End failures.

(** ** Presence and rooms over time *)

Lemma dict_get_set_ne (k k' v : string) (d : list (string * string)) :
  k ≠ k' → dict_get k' (dict_set k v d) = dict_get k' d.
Proof.
  intros Hne. induction d as [|[k0 v0] d IH]; simpl.
  - by rewrite decide_False.
  - destruct (decide (k0 = k)) as [->|Hk0]; simpl.
    + by rewrite !decide_False.
    + by rewrite IH.
Qed.

Lemma dict_get_del_ne (k k' : string) (d : list (string * string)) :
  k ≠ k' → dict_get k' (dict_del k d) = dict_get k' d.
Proof.
  intros Hne. induction d as [|[k0 v0] d IH]; simpl; [done|].
  destruct (decide (k0 = k)) as [->|Hk0]; simpl.
  - by rewrite decide_False.
  - by rewrite IH.
Qed.

Section more_presence.
Context {env : Env}.

(** X12: a connect with a participant id registers that id and nothing
    else: every other participant keeps the connection it had, no room
    changes, and the only event is [connected], sent to the connecting
    connection alone. *)
Theorem connect_registers_only_itself (uid sid : string) (w : World) :
  truthy uid = true →
  let w' := step (Connect sid (Some uid)) w in
  (∀ other : string,
     other ≠ uid →
     dict_get other (connected_users w') = dict_get other (connected_users w))
  ∧ rooms w' = rooms w
  ∧ outbox w' = outbox w ++ [connected_emission sid].
Proof.
  intros Huid w'. unfold w'. cbn [step].
  destruct (handle_connect_world (Some uid) sid (open_connection sid w))
    as (Hr & _ & _ & Hw).
  rewrite Huid in Hw. destruct Hw as [Hu Ho].
  split; [|split; [exact Hr|exact Ho]].
  intros other Hne. rewrite Hu. cbn [open_connection connected_users].
  by apply dict_get_set_ne.
Qed.

(** X13: a disconnect touches only the connection that disconnects.  In
    every state the server can reach, a participant registered with another
    connection keeps it, so the late disconnect of a connection whose
    participant has since reconnected does not remove the newer
    registration, and every other connection stays in the rooms it was in. *)
Theorem disconnect_keeps_others (w : World) (sid : string) :
  reachable w →
  let w' := step (Disconnect sid) w in
  (∀ A c : string,
     dict_get A (connected_users w) = Some c → c ≠ sid →
     dict_get A (connected_users w') = Some c)
  ∧ (∀ (room c : string), c ≠ sid → c ∈ members w' room ↔ c ∈ members w room).
Proof.
  intros Hw w'. apply reachable_ok in Hw. destruct Hw as [Hk _ _ _ _].
  split.
  - intros A c Hget Hne. unfold w'. cbn [step leave_all connected_users].
    destruct (handle_disconnect_world sid w)
      as (_ & _ & _ & _ & [->|(uid & Hscan & ->)]); [done|].
    rewrite dict_get_del_ne; [done|].
    intros ->. apply scan_sid_elem_of in Hscan.
    apply (elem_of_dict_get _ _ _ Hk) in Hscan. congruence.
  - intros room c Hne. unfold w', members. cbn [step leave_all rooms].
    destruct (handle_disconnect_world sid w) as (-> & _).
    rewrite lookup_fmap. destruct (rooms w !! room) as [s|]; simpl; [|done].
    rewrite elem_of_difference, elem_of_singleton. tauto.
Qed.

(** X14: in every state the server can reach, the presence dictionary names
    only open connections, no connection is registered for two participants,
    and no participant id in it is empty. *)
Theorem presence_consistent (w : World) :
  reachable w →
  (∀ A c : string, dict_get A (connected_users w) = Some c → c ∈ live w)
  ∧ (∀ A B c : string,
       dict_get A (connected_users w) = Some c →
       dict_get B (connected_users w) = Some c → A = B)
  ∧ (∀ A c : string, dict_get A (connected_users w) = Some c → A ≠ "").
Proof.
  intros Hw. apply reachable_ok in Hw. destruct Hw as [Hk Ht Hv Hl _].
  split; [|split].
  - intros A c Hget. apply Hl. by apply (dict_get_value A).
  - intros A B c HA HB.
    apply dict_get_elem_of in HA, HB.
    by apply (dict_value_key A B c (connected_users w)).
  - intros A c Hget ->. rewrite Forall_forall in Ht.
    assert (truthy "" = true) as Hbad; [|done].
    apply Ht. apply list_elem_of_fmap. exists ("", c).
    split; [done|]. by apply dict_get_elem_of.
Qed.

Lemma step_members (e : event) (w : World) (room c : string) :
  c ∈ members (step e w) room →
  c ∈ members w room ∨ joins_room c room e.
Proof.
  destruct e as [sid uid|sid|sid data|sid data]; simpl.
  - destruct (handle_connect_world uid sid (open_connection sid w))
      as (Hr & _). unfold members. rewrite Hr. simpl. auto.
  - destruct (handle_disconnect_world sid w) as (Hr & _).
    unfold members. simpl. rewrite Hr, lookup_fmap.
    destruct (rooms w !! room) as [s|]; simpl; [|auto].
    rewrite elem_of_difference. tauto.
  - destruct (handle_join_world data sid w) as (_ & _ & _ & Hw).
    destruct (parse_join data) as [[[a b] name]|] eqn:Hp.
    + simpl in Hw. destruct Hw as [Hr _]. unfold members at 1. rewrite Hr.
      destruct (decide (get_room a b = room)) as [<-|Hne].
      * rewrite lookup_insert_eq. simpl.
        rewrite elem_of_union, elem_of_singleton.
        intros [->|Hin]; [|auto]. right. split; [done|]. by exists a, b, name.
      * rewrite lookup_insert_ne by done. auto.
    + destruct Hw as [Hr _]. unfold members. rewrite Hr. auto.
  - destruct (handle_send_message_world data sid w) as (_ & Hr & _).
    unfold members. rewrite Hr. auto.
Qed.

Lemma step_outbox_rooms (e : event) (w : World) :
  ∃ evs : list Emission,
    outbox (step e w) = outbox w ++ evs
    ∧ Forall (λ ev, ∀ room, ev_to ev = ToRoom room →
                    ev_rcpts ev = members (step e w) room) evs.
Proof.
  destruct e as [sid uid|sid|sid data|sid data]; simpl.
  - destruct (handle_connect_world uid sid (open_connection sid w))
      as (_ & _ & _ & Hw).
    destruct uid as [uid|]; [destruct (truthy uid)|].
    + destruct Hw as [_ ->]. eexists. split; [done|]. by repeat constructor.
    + destruct Hw as [_ ->]. exists []. by rewrite app_nil_r.
    + destruct Hw as [_ ->]. exists []. by rewrite app_nil_r.
  - destruct (handle_disconnect_world sid w) as (_ & _ & _ & -> & _).
    exists []. by rewrite app_nil_r.
  - destruct (handle_join_world data sid w) as (_ & _ & _ & Hw).
    destruct (parse_join data) as [[[a b] name]|].
    + simpl in Hw. destruct Hw as [Hr ->]. eexists. split; [done|].
      assert (members (handle_join data sid w).2 (get_room a b)
              = {[ sid ]} ∪ members w (get_room a b)) as Hm.
      { unfold members at 1. by rewrite Hr, lookup_insert_eq. }
      constructor; [intros room [= <-]; by rewrite Hm|].
      destruct (emit_raises _ _); [by repeat constructor|].
      constructor; [done|]. destruct (emit_raises _ _); by repeat constructor.
    + destruct Hw as [_ ->]. eexists. split; [done|]. by repeat constructor.
  - destruct (handle_send_message_world data sid w) as (_ & Hr & _ & Hw).
    assert (∀ room, members (handle_send_message data sid w).2 room
                    = members w room) as Hm.
    { intros room. unfold members. by rewrite Hr. }
    destruct (parse_send data) as [[[a b] text]|].
    + destruct (truthy text).
      * simpl in Hw. destruct (commit_raises _ _).
        -- destruct Hw as [_ ->]. eexists. split; [done|].
           by repeat constructor.
        -- destruct Hw as [_ ->]. eexists. split; [done|].
           constructor; [intros room [= <-]; by rewrite Hm|].
           destruct (emit_raises _ _); [by repeat constructor|].
           constructor; [done|].
           destruct (emit_raises _ _); by repeat constructor.
      * destruct Hw as [_ ->]. eexists. split; [done|].
        constructor; [done|]. destruct (emit_raises _ _); by repeat constructor.
    + destruct Hw as [_ ->]. eexists. split; [done|]. by repeat constructor.
Qed.

(** X15: rooms are entered only by joining.  A connection that is not in a
    room stays out of it through any events among which it sends no join
    resolving to that room; and none of the events emitted to the room in
    the meantime, notices and messages alike, counts it among its
    recipients. *)
Theorem room_entered_only_by_join (es : list event) (w : World)
    (room c : string) :
  c ∉ members w room →
  Forall (λ e, ¬ joins_room c room e) es →
  (c ∉ members (run es w) room)
  ∧ ∃ evs : list Emission,
      outbox (run es w) = outbox w ++ evs
      ∧ Forall (λ ev, ev_to ev = ToRoom room → c ∉ ev_rcpts ev) evs.
Proof.
  revert w. induction es as [|e es IH]; intros w Hout Hes; simpl.
  - split; [done|]. exists []. by rewrite app_nil_r.
  - apply Forall_cons in Hes as [He Hes].
    assert (c ∉ members (step e w) room) as Hout'.
    { intros Hin. apply step_members in Hin as [Hin|Hin]; done. }
    destruct (IH (step e w) Hout' Hes) as (Hlast & evs & Ho & Hevs).
    split; [exact Hlast|].
    destruct (step_outbox_rooms e w) as (evs0 & Ho0 & Hevs0).
    exists (evs0 ++ evs). split; [by rewrite Ho, Ho0, app_assoc|].
    apply Forall_app. split; [|exact Hevs].
    eapply Forall_impl; [exact Hevs0|]. simpl.
    intros ev Hev Hto. by rewrite (Hev room Hto).
Qed.

(** X16: in every state the server can reach, the members of every room are
    open connections: none is left in a room after it disconnected. *)
Theorem room_members_are_open (w : World) (room c : string) :
  reachable w → c ∈ members w room → c ∈ live w.
Proof.
  intros Hw. revert room c.
  induction Hw as [|w e Hw IH He]; intros room c.
  - unfold members. simpl. rewrite lookup_empty. simpl.
    intros Hin. by apply elem_of_empty in Hin.
  - destruct e as [sid uid|sid|sid data|sid data]; simpl in *.
    + destruct (handle_connect_world uid sid (open_connection sid w))
        as (Hr & Hl & _). unfold members. rewrite Hr, Hl. simpl.
      intros Hin. apply elem_of_union_r. by apply (IH room).
    + destruct (handle_disconnect_world sid w) as (Hr & Hl & _).
      unfold members. simpl. rewrite Hr, Hl, lookup_fmap.
      destruct (rooms w !! room) as [s|] eqn:Hs; simpl;
        [|intros Hin; by apply elem_of_empty in Hin].
      rewrite !elem_of_difference. intros [Hin Hne]. split; [|done].
      apply (IH room). unfold members. by rewrite Hs.
    + intros Hin. destruct (handle_join_world data sid w) as (_ & -> & _).
      apply (step_members (Join sid data)) in Hin as [Hin|[-> _]];
        [by apply (IH room)|done].
    + destruct (handle_send_message_world data sid w) as (_ & Hr & Hl & _).
      unfold members. rewrite Hr, Hl. apply IH.
Qed.

End more_presence.

(** ** From joining to receiving *)

Lemma get_room_unordered (x y a b : Z) :
  unordered x y = unordered a b → get_room x y = get_room a b.
Proof.
  intros H. apply unordered_inv in H as [[-> ->]|[-> ->]]; [done|].
  unfold get_room. by rewrite Z.min_comm, Z.max_comm.
Qed.

Section delivery.
Context {env : Env}.

Lemma step_members_kept (e : event) (w : World) (room c : string) :
  c ∈ members w room → e ≠ Disconnect c → c ∈ members (step e w) room.
Proof.
  intros Hin Hne. destruct e as [sid uid|sid|sid data|sid data]; cbn [step].
  - destruct (handle_connect_world uid sid (open_connection sid w))
      as (Hr & _). unfold members. by rewrite Hr.
  - destruct (handle_disconnect_world sid w) as (Hr & _).
    unfold members. cbn [leave_all rooms]. rewrite Hr, lookup_fmap.
    unfold members in Hin.
    destruct (rooms w !! room) as [s|]; simpl in *; [|done].
    apply elem_of_difference. split; [done|].
    rewrite elem_of_singleton. congruence.
  - destruct (handle_join_world data sid w) as (_ & _ & _ & Hw).
    destruct (parse_join data) as [[[a b] name]|].
    + simpl in Hw. destruct Hw as [Hr _]. unfold members at 1. rewrite Hr.
      destruct (decide (get_room a b = room)) as [<-|Hroom].
      * rewrite lookup_insert_eq. simpl. by apply elem_of_union_r.
      * by rewrite lookup_insert_ne.
    + destruct Hw as [Hr _]. unfold members. by rewrite Hr.
  - destruct (handle_send_message_world data sid w) as (_ & Hr & _).
    unfold members. by rewrite Hr.
Qed.

Lemma run_members_kept (es : list event) (w : World) (room c : string) :
  c ∈ members w room → Forall (λ e, e ≠ Disconnect c) es →
  c ∈ members (run es w) room.
Proof.
  revert w. induction es as [|e es IH]; intros w Hin Hes; [done|].
  apply Forall_cons in Hes as [He Hes]. simpl.
  apply IH; [|done]. by apply step_members_kept.
Qed.

(** X17: a connection that is in the room of two participants, as it is
    after joining with their ids in either order, stays in it until it
    disconnects, and every message then stored between the two, in either
    direction and from whichever connection, is broadcast with that
    connection among its recipients. *)
Theorem joined_connection_receives (es : list event) (w : World) (c : string)
    (a b : Z) (data : gmap string value) (sid : string) (v1 v2 : value)
    (sender receiver : Z) (body : string) :
  c ∈ members w (get_room a b) →
  Forall (λ e, e ≠ Disconnect c) es →
  unordered sender receiver = unordered a b →
  data !! "sender_id" = Some v1 → py_int v1 = Some sender →
  data !! "receiver_id" = Some v2 → py_int v2 = Some receiver →
  data !! "message" = Some (VStr body) → truthy (strip body) = true →
  let w1 := run es w in
  let msg := new_message w1 sender receiver (strip body) in
  commit_raises (db_messages w1) msg = false →
  (∃ rest : list Emission,
     outbox (handle_send_message data sid w1).2
     = outbox w1 ++ broadcast_of w1 msg :: rest)
  ∧ c ∈ ev_rcpts (broadcast_of w1 msg)
  ∧ payload_get "message" (ev_data (broadcast_of w1 msg))
    = Some (VStr (strip body)).
Proof.
  intros Hin Hes Hpair H1 Hs H2 Hr H3 Ht w1 msg Hc.
  destruct (handle_send_message_world data sid w1) as (_ & _ & _ & Hw).
  rewrite (parse_send_Some data v1 v2 sender receiver body) in Hw by done.
  rewrite Ht in Hw. simpl in Hw. fold msg in Hw. rewrite Hc in Hw.
  destruct Hw as [_ Hout].
  split; [by eexists|]. split; [|done].
  simpl. rewrite (get_room_unordered sender receiver a b Hpair).
  by apply run_members_kept.
Qed.

End delivery.

(** ** The further properties on the two-participant chat *)

Lemma reconnected_world_reachable :
  reachable (env := quiet_env) reconnected_world.
Proof. apply reachable_run; [constructor|]. by vm_compute. Qed.

Lemma sent_message_in_history_witness :
  ∃ rows : list Message,
    get_messages (env := quiet_env) (engine := timestamp_engine) 1 2
      (handle_send_message (env := quiet_env) (send_data 1 2 " hi ") "s1"
         joined_world).2
    = Json200 (message_json (env := quiet_env) <$> rows)
    ∧ get_messages (env := quiet_env) (engine := timestamp_engine) 2 1
        (handle_send_message (env := quiet_env) (send_data 1 2 " hi ") "s1"
           joined_world).2
      = Json200 (message_json (env := quiet_env) <$> rows)
    ∧ new_message (env := quiet_env) joined_world 1 2 "hi" ∈ rows
    ∧ NoDup rows.
Proof.
  exact (sent_message_in_history (env := quiet_env)
           (engine := timestamp_engine) (send_data 1 2 " hi ") "s1"
           joined_world (VInt 1) (VInt 2) 1 2 " hi " joined_world_reachable
           eq_refl eq_refl eq_refl eq_refl eq_refl eq_refl eq_refl eq_refl).
Defined.

Lemma send_keeps_other_histories_witness :
  history_rows (engine := timestamp_engine) 1 3
    (db_messages (handle_send_message (env := quiet_env)
                    (send_data 1 2 "hi") "s1" tied_world).2)
  = history_rows (engine := timestamp_engine) 1 3 (db_messages tied_world).
Proof.
  apply (send_keeps_other_histories (env := quiet_env)
           (engine := timestamp_engine) (send_data 1 2 "hi") "s1" tied_world
           (VInt 1) (VInt 2) 1 2 1 3 eq_refl eq_refl eq_refl eq_refl).
  intros H. apply unordered_inv in H. lia.
Defined.

Lemma stored_bodies_trimmed_witness :
  Forall (λ m, message m ≠ "" ∧ strip (message m) = message m)
         (db_messages tied_world).
Proof.
  exact (stored_bodies_trimmed (env := frozen_clock_env) tied_world
           tied_world_reachable).
Defined.

Lemma invalid_join_rejected_witness :
  rooms (handle_join (env := quiet_env) ∅ "s1" joined_world).2
  = rooms joined_world
  ∧ outbox (handle_join (env := quiet_env) ∅ "s1" joined_world).2
    = outbox joined_world ++ [join_failed "s1"]
  ∧ connected_users (handle_join (env := quiet_env) ∅ "s1" joined_world).2
    = connected_users joined_world
  ∧ db_messages (handle_join (env := quiet_env) ∅ "s1" joined_world).2
    = db_messages joined_world.
Proof.
  exact (invalid_join_rejected (env := quiet_env) ∅ "s1" joined_world
           (or_introl eq_refl)).
Defined.

Lemma invalid_send_rejected_witness :
  db_messages (handle_send_message (env := quiet_env)
                 (<["sender_id" := VStr "abc"]> (send_data 1 2 "hi")) "s1"
                 joined_world).2
  = db_messages joined_world.
Proof.
  exact (proj1 (invalid_send_rejected (env := quiet_env)
                  (<["sender_id" := VStr "abc"]> (send_data 1 2 "hi")) "s1"
                  joined_world
                  (or_intror (or_introl
                     (ex_intro _ (VStr "abc") (conj eq_refl eq_refl)))))).
Defined.

Lemma failed_commit_not_broadcast_witness :
  db_messages (handle_send_message (env := broken_db_env)
                 (send_data 1 2 "hi") "s1" joined_world).2
  = db_messages joined_world
  ∧ outbox (handle_send_message (env := broken_db_env)
              (send_data 1 2 "hi") "s1" joined_world).2
    = outbox joined_world ++ [send_failed "s1"].
Proof.
  exact (failed_commit_not_broadcast (env := broken_db_env)
           (send_data 1 2 "hi") "s1" joined_world (VInt 1) (VInt 2) 1 2 "hi"
           eq_refl eq_refl eq_refl eq_refl eq_refl eq_refl eq_refl).
Defined.

Lemma join_kept_when_notice_fails_witness :
  "s1" ∈ members (handle_join (env := broken_notice_env)
                    (join_data 1 2 "Alice") "s1" init_world).2
           (get_room 1 2).
Proof.
  exact (proj1 (join_kept_when_notice_fails (env := broken_notice_env)
                  (join_data 1 2 "Alice") "s1" init_world
                  (VInt 1) (VInt 2) (VStr "Alice") 1 2
                  eq_refl eq_refl eq_refl eq_refl eq_refl eq_refl)).
Defined.

Lemma handlers_contain_exceptions_witness :
  (handle_join (env := broken_broadcast_env) (join_data 1 2 "Alice") "s1"
     joined_world_broken).1 = Returned tt
  ∧ (handle_send_message (env := broken_broadcast_env) (send_data 1 2 "hi")
       "s1" joined_world_broken).1 = Returned tt.
Proof.
  split.
  - exact (proj1 (handlers_contain_exceptions (env := broken_broadcast_env)
                    (join_data 1 2 "Alice") "s1" joined_world_broken
                    (λ _ _, eq_refl))).
  - exact (proj2 (handlers_contain_exceptions (env := broken_broadcast_env)
                    (send_data 1 2 "hi") "s1" joined_world_broken
                    (λ _ _, eq_refl))).
Defined.

Lemma connect_registers_only_itself_witness :
  dict_get "1"
    (connected_users
       (step (env := quiet_env) (Connect "s9" (Some "3")) joined_world))
  = dict_get "1" (connected_users joined_world).
Proof.
  apply (proj1 (connect_registers_only_itself (env := quiet_env) "3" "s9"
                  joined_world eq_refl)).
  discriminate.
Defined.

Lemma disconnect_keeps_others_witness :
  dict_get "1"
    (connected_users
       (step (env := quiet_env) (Disconnect "s1") reconnected_world))
  = Some "s2".
Proof.
  apply (proj1 (disconnect_keeps_others (env := quiet_env) reconnected_world
                  "s1" reconnected_world_reachable) "1" "s2" eq_refl).
  discriminate.
Defined.

Lemma presence_consistent_witness : "s1" ∈ live joined_world.
Proof.
  exact (proj1 (presence_consistent (env := quiet_env) joined_world
                  joined_world_reachable) "1" "s1" eq_refl).
Defined.

Lemma room_entered_only_by_join_witness :
  ("s3" ∉ members
            (run (env := quiet_env)
               (two_joined ++ [Connect "s3" (Some "3");
                               SendMessage "s1" (send_data 1 2 "hi")])
               init_world)
            (get_room 1 2))
  ∧ ∃ evs : list Emission,
      outbox (run (env := quiet_env)
                (two_joined ++ [Connect "s3" (Some "3");
                                SendMessage "s1" (send_data 1 2 "hi")])
                init_world)
      = outbox init_world ++ evs
      ∧ Forall (λ ev, ev_to ev = ToRoom (get_room 1 2) → "s3" ∉ ev_rcpts ev)
               evs.
Proof.
  apply (room_entered_only_by_join (env := quiet_env)).
  - unfold members. simpl. rewrite lookup_empty. apply not_elem_of_empty.
  - repeat constructor; simpl; try tauto; intros [H _]; discriminate H.
Defined.

Lemma room_members_are_open_witness : "s2" ∈ live joined_world.
Proof.
  apply (room_members_are_open (env := quiet_env) joined_world
           (get_room 1 2) "s2" joined_world_reachable).
  by vm_compute.
Defined.

Lemma joined_connection_receives_witness :
  "s2" ∈ ev_rcpts
           (broadcast_of (env := quiet_env)
              (run (env := quiet_env) [Disconnect "s1"] joined_world)
              (new_message (env := quiet_env)
                 (run (env := quiet_env) [Disconnect "s1"] joined_world)
                 2 1 "hello")).
Proof.
  refine (proj1 (proj2
    (joined_connection_receives (env := quiet_env) [Disconnect "s1"]
       joined_world "s2" 1 2 (send_data 2 1 "hello ") "s2"
       (VInt 2) (VInt 1) 2 1 "hello " _ _ _
       eq_refl eq_refl eq_refl eq_refl eq_refl eq_refl eq_refl))).
  - by vm_compute.
  - repeat constructor. discriminate.
  - apply unordered_comm.
Defined.

(** * The order of the history and the acknowledgement of a send *)

Global Instance ts_then_id_le_trans : Transitive ts_then_id_le.
Proof. intros m1 m2 m3. unfold ts_then_id_le. lia. Qed.

Lemma insert_by_timestamp_sorted_ids (m : Message) (l : list Message) :
  Sorted ts_then_id_le l → Forall (λ x, id m < id x) l →
  Sorted ts_then_id_le (insert_by_timestamp m l).
Proof.
  induction 1 as [|x xs Hxs IH Hhd]; intros Hids; simpl.
  - by repeat constructor.
  - apply Forall_cons in Hids as [Hx Hids].
    destruct (decide (timestamp m ≤ timestamp x)) as [Hle|Hgt].
    + constructor; [by constructor|].
      constructor. unfold ts_then_id_le. lia.
    + constructor; [by apply IH|].
      destruct Hhd as [|y ys Hxy]; simpl.
      * constructor. unfold ts_then_id_le. lia.
      * destruct (decide (timestamp m ≤ timestamp y));
          constructor; [unfold ts_then_id_le; lia|done].
Qed.

(** On a table whose ids ascend, ordering by timestamp while keeping tied
    rows in table order breaks the ties by ascending id. *)
Lemma sort_by_timestamp_sorted_ids (l : list Message) :
  StronglySorted Z.lt (id <$> l) → Sorted ts_then_id_le (sort_by_timestamp l).
Proof.
  induction l as [|m l IH]; intros Hs; simpl; [constructor|].
  rewrite fmap_cons in Hs. apply StronglySorted_inv in Hs as [Hs Hall].
  apply insert_by_timestamp_sorted_ids; [by apply IH|].
  rewrite sort_by_timestamp_perm.
  rewrite Forall_forall in Hall. rewrite Forall_forall.
  intros x Hx. apply Hall.
  apply list_elem_of_fmap. by exists x.
Qed.

Lemma filter_ids_sorted (f : Message → bool) (l : list Message) :
  StronglySorted Z.lt (id <$> l) →
  StronglySorted Z.lt (id <$> List.filter f l).
Proof.
  induction l as [|m l IH]; intros Hs; simpl; [constructor|].
  rewrite fmap_cons in Hs. apply StronglySorted_inv in Hs as [Hs Hall].
  destruct (f m); [|by apply IH].
  rewrite fmap_cons. constructor; [by apply IH|].
  rewrite Forall_forall in Hall. rewrite Forall_forall.
  intros y Hy. apply Hall.
  apply list_elem_of_fmap in Hy as (x & -> & Hx).
  apply list_elem_of_fmap. exists x. split; [done|].
  apply list_elem_of_In in Hx. apply List.filter_In in Hx as [Hx _].
  by apply list_elem_of_In.
Qed.

Section order_and_acknowledgement.
Context {env : Env}.

(** C1: for every pair of participant ids the history route returns exactly
    the stored messages whose sender and receiver are that pair, in either
    direction, each once, in ascending order of timestamp, and of two
    messages with the same timestamp the one with the smaller id comes
    first.  The table is one the handlers built, and the engine returns
    rows of equal timestamps in table order. *)
Theorem get_messages_sorted_by_timestamp_then_id (user1 user2 : Z)
    (w : World) :
  reachable w → query_raises (db_messages w) = false →
  ∃ msgs : list Message,
    get_messages (engine := table_order_engine) user1 user2 w
    = Json200 (message_json <$> msgs)
    ∧ msgs ≡ₚ filter (λ m, unordered (sender_id m) (receiver_id m)
                            = unordered user1 user2) (db_messages w)
    ∧ (∀ m, m ∈ msgs ↔
            m ∈ db_messages w
            ∧ unordered (sender_id m) (receiver_id m) = unordered user1 user2)
    ∧ StronglySorted ts_then_id_le msgs.
Proof.
  intros Hw Hq. apply reachable_ok in Hw. destruct Hw as [_ _ _ _ Hids].
  exists (history_rows (engine := table_order_engine) user1 user2
            (db_messages w)).
  assert (history_rows (engine := table_order_engine) user1 user2
            (db_messages w) ≡ₚ
          filter (λ m, unordered (sender_id m) (receiver_id m)
                       = unordered user1 user2) (db_messages w)) as Hperm.
  { unfold history_rows. simpl. rewrite sort_by_timestamp_perm.
    by rewrite filter_between. }
  split; [|split; [|split]].
  - unfold get_messages. by rewrite Hq.
  - exact Hperm.
  - intros m. rewrite Hperm, list_elem_of_filter. tauto.
  - apply Sorted_StronglySorted; [apply _|].
    unfold history_rows. simpl. apply sort_by_timestamp_sorted_ids.
    by apply filter_ids_sorted.
Qed.


End order_and_acknowledgement.

Lemma get_messages_sorted_by_timestamp_then_id_witness :
  ∃ msgs : list Message,
    get_messages (env := frozen_clock_env) (engine := table_order_engine)
      1 2 tied_world
    = Json200 (message_json (env := frozen_clock_env) <$> msgs)
    ∧ msgs ≡ₚ filter (λ m, unordered (sender_id m) (receiver_id m)
                            = unordered 1 2) (db_messages tied_world)
    ∧ (∀ m, m ∈ msgs ↔
            m ∈ db_messages tied_world
            ∧ unordered (sender_id m) (receiver_id m) = unordered 1 2)
    ∧ StronglySorted ts_then_id_le msgs.
Proof.
  exact (get_messages_sorted_by_timestamp_then_id (env := frozen_clock_env)
           1 2 tied_world tied_world_reachable eq_refl).
Defined.


Example tied_history_by_id :
  history_rows (engine := table_order_engine) 1 2 (db_messages tied_world)
  = [mkMessage 1 1 2 "hi" 1700000000; mkMessage 2 1 2 "yo" 1700000000].
Proof. by vm_compute. Qed.
